(** * push_notifications.gcm: dispatch and reconciliation of GCM messages

    A shallow embedding of [push_notifications/gcm.py].  Python lists are
    Rocq lists, Python integers are [Z], Python strings are [string];
    dynamically typed values are [json] values; exceptions are an explicit
    [outcome]; the device table and the network are threaded through a
    small state-and-exception monad. *)

From Stdlib Require Import String Ascii.
From Stdlib Require Import List ZArith Bool Lia Arith DecimalString.
From Stdlib Require Import Permutation Sorted OrderedTypeEx.
Import ListNotations.

Local Open Scope Z_scope.

(** ** Python values *)

(** The values [json.dumps] accepts and [json.loads] produces: [None],
    booleans, integers, strings, lists and dictionaries with string keys
    (kept in insertion order). *)
#[warnings="-register-all"]
Inductive json : Type :=
| JNull
| JBool (b : bool)
| JNum (n : Z)
| JStr (s : string)
| JList (xs : list json)
| JDict (kvs : list (string * json)).

Module Py.

(** [range(start, stop, step)]: [None] stands for the [ValueError] that
    Python raises on a zero step. *)
Definition range (start stop step : Z) : option (list Z) :=
  if step =? 0 then None
  else
    let count :=
      if 0 <? step then (stop - start + step - 1) / step
      else (start - stop - step - 1) / (- step) in
    Some (map (fun k => start + Z.of_nat k * step) (seq 0 (Z.to_nat count))).

(** A slice bound is clamped into [0 .. len]; a negative bound counts from
    the end. *)
Definition clamp (len i : Z) : Z :=
  if i <? 0 then Z.max 0 (i + len) else Z.min i len.

(** [l[i:j]] *)
Definition slice {A : Type} (l : list A) (i j : Z) : list A :=
  let len := Z.of_nat (length l) in
  let a := clamp len i in
  let b := clamp len j in
  firstn (Z.to_nat (b - a)) (skipn (Z.to_nat a) l).

(** [len(l)] *)
Definition len {A : Type} (l : list A) : Z := Z.of_nat (length l).

(** Truth value of a string: the empty string is false. *)
Definition str_truthy (s : string) : bool :=
  match s with EmptyString => false | _ => true end.

(** Truth value of what [d.get(key)] returned when the value, if any, is a
    string: [None] (an absent key) is false. *)
Definition opt_truthy (o : option string) : bool :=
  match o with None => false | Some s => str_truthy s end.

(** Truth value of a Python value, as [if v:] tests it. *)
Definition truthy (v : json) : bool :=
  match v with
  | JNull => false
  | JBool b => b
  | JNum n => negb (n =? 0)
  | JStr s => str_truthy s
  | JList xs => match xs with [] => false | _ => true end
  | JDict kvs => match kvs with [] => false | _ => true end
  end.

(** [v is not None] *)
Definition is_not_none (v : json) : bool :=
  match v with JNull => false | _ => true end.

(** [d.get(key)] on a dictionary, [JNull] for [None]. *)
Fixpoint dict_get (key : string) (d : list (string * json)) : json :=
  match d with
  | [] => JNull
  | (k, v) :: rest => if String.eqb k key then v else dict_get key rest
  end.

(** [key in d] *)
Definition dict_has (key : string) (d : list (string * json)) : bool :=
  existsb (fun kv => String.eqb (fst kv) key) d.

(** [d[key] = v]: an existing key keeps its place, a new one goes last. *)
Fixpoint dict_set (key : string) (v : json) (d : list (string * json))
  : list (string * json) :=
  match d with
  | [] => [(key, v)]
  | (k, w) :: rest =>
      if String.eqb k key then (k, v) :: rest else (k, w) :: dict_set key v rest
  end.

(** [str(n)] for an integer. *)
Definition str_of_int (n : Z) : string := NilZero.string_of_int (Z.to_int n).

End Py.

(** ** [json.dumps(values, separators=(",", ":"), sort_keys=True)] *)

Module Json.

Local Open Scope string_scope.

Definition hex_digit (n : nat) : ascii :=
  nth n (list_ascii_of_string "0123456789abcdef") "0"%char.

(** One character inside a string literal ([ensure_ascii] is on):
    characters outside the printable ASCII range, the quote and the
    backslash are escaped.  Strings are read as sequences of code points
    below 256. *)
Definition escape (c : ascii) : string :=
  let n := nat_of_ascii c in
  if Ascii.eqb c "034" then "\" ++ String "034" ""
  else if Ascii.eqb c "\" then "\\"
  else if Ascii.eqb c "010" then "\n"
  else if Ascii.eqb c "013" then "\r"
  else if Ascii.eqb c "009" then "\t"
  else if Ascii.eqb c "008" then "\b"
  else if Ascii.eqb c "012" then "\f"
  else if ((32 <=? n) && (n <=? 126))%nat then String c ""
  else "\u00" ++ String (hex_digit (n / 16)) (String (hex_digit (n mod 16)) "").

Fixpoint escape_all (s : string) : string :=
  match s with
  | EmptyString => ""
  | String c rest => escape c ++ escape_all rest
  end.

Definition quote (s : string) : string :=
  String "034" (escape_all s ++ String "034" "").

(** Keys are sorted with a stable insertion sort on the code-point order
    of strings. *)
Fixpoint insert_item (kv : string * string) (l : list (string * string))
  : list (string * string) :=
  match l with
  | [] => [kv]
  | kv' :: rest =>
      if String.leb (fst kv) (fst kv') then kv :: l
      else kv' :: insert_item kv rest
  end.

Definition sort_items (l : list (string * string)) : list (string * string) :=
  fold_right insert_item [] l.

Definition render_item (kt : string * string) : string :=
  quote (fst kt) ++ ":" ++ snd kt.

Fixpoint dumps (v : json) : string :=
  match v with
  | JNull => "null"
  | JBool true => "true"
  | JBool false => "false"
  | JNum n => Py.str_of_int n
  | JStr s => quote s
  | JList xs => "[" ++ String.concat "," (map dumps xs) ++ "]"
  | JDict kvs =>
      "{" ++ String.concat ","
               (map render_item
                  (sort_items (map (fun kv => let '(k, x) := kv in (k, dumps x)) kvs)))
          ++ "}"
  end.

(** *** Reading the serialisation

    What the statements about the serialised request are written with:
    the characters that a string literal shows as they are, the text of a
    member of an object, and when two values have the same content. *)

(** A printable ASCII character other than the quote and the backslash. *)
Definition plain (c : ascii) : bool :=
  let n := nat_of_ascii c in
  ((32 <=? n) && (n <=? 126))%nat &&
  negb (Ascii.eqb c "034") && negb (Ascii.eqb c "\").

(** The text [<quote>key<quote>:text] of a member whose key is written as
    it is. *)
Definition member (key text : string) : string :=
  String "034" (key ++ String "034" (":" ++ text)).

(** No key occurs twice. *)
Fixpoint distinct (keys : list string) : bool :=
  match keys with
  | [] => true
  | k :: rest => negb (existsb (String.eqb k) rest) && distinct rest
  end.

(** The value is one that Python can hold: at every depth, a dictionary
    has each key once. *)
Fixpoint distinct_keys (v : json) : bool :=
  match v with
  | JList xs => forallb distinct_keys xs
  | JDict kvs =>
      distinct (map fst kvs) &&
      forallb (fun kv => let '(_, x) := kv in distinct_keys x) kvs
  | _ => true
  end.

(** The two values have the same content: the same scalar; lists of the
    same length with the same content at each index; dictionaries with the
    same number of keys in which every key of the first is a key of the
    second with the same content, in whatever order each lists its
    keys. *)
Fixpoint same_content (a b : json) {struct a} : bool :=
  match a with
  | JNull => match b with JNull => true | _ => false end
  | JBool x => match b with JBool y => Bool.eqb x y | _ => false end
  | JNum x => match b with JNum y => Z.eqb x y | _ => false end
  | JStr x => match b with JStr y => String.eqb x y | _ => false end
  | JList xs =>
      match b with
      | JList ys =>
          (fix each (xs ys : list json) {struct xs} : bool :=
             match xs, ys with
             | [], [] => true
             | x :: xs', y :: ys' => same_content x y && each xs' ys'
             | _, _ => false
             end) xs ys
      | _ => false
      end
  | JDict kxs =>
      match b with
      | JDict kys =>
          Nat.eqb (length kxs) (length kys) &&
          forallb
            (fun kx =>
               let '(k, x) := kx in
               match find (fun ky => String.eqb k (fst ky)) kys with
               | Some ky => same_content x (snd ky)
               | None => false
               end)
            kxs
      | _ => false
      end
  end.

End Json.

(** ** The gateway's response

    [{"failure"?: .., "canonical_ids"?: .., "results": [{"error"?: str,
    "registration_id"?: str}, ...]}] as [json.loads] returns it.  A field of
    an entry that is absent (or null) is [None]; the two top-level counters
    are arbitrary values, [JNull] when absent; [results] is [None] when the
    key is absent.  Answers whose [results] is not an array, or holds an
    entry that is not an object, are not represented: on those the loop
    fails when it reads the value, before any write to the table. *)
Record gcm_result : Type := {
  res_error : option string;
  res_registration_id : option string
}.

Record gcm_response : Type := {
  failure : json;
  canonical_ids : json;
  results : option (list gcm_result)
}.

(** ** Exceptions and outcomes *)

Inductive exn : Type :=
| ImproperlyConfigured
| HTTPError (status : Z)
| GCMError (response : gcm_response)
| KeyError (key : string)
| IndexError
| ValueError.

Inductive outcome (A : Type) : Type :=
| Return (a : A)
| Raise (e : exn).

Arguments Return {A} a.
Arguments Raise {A} e.

(** ** The batcher: [_chunks]

<<
def _chunks(l, n):
    for i in range(0, len(l), n):
        yield l[i:i + n]
>>
    The generator is embedded as the list of the values it yields; the
    [ValueError] of [range] surfaces when the generator is first advanced. *)
Definition _chunks {A : Type} (l : list A) (n : Z) : outcome (list (list A)) :=
  match Py.range 0 (Py.len l) n with
  | None => Raise ValueError
  | Some idx => Return (map (fun i => Py.slice l i (i + n)) idx)
  end.

(** Number of chunks: the ceiling of [len / n]. *)
Definition chunk_count (len n : nat) : nat :=
  Z.to_nat ((Z.of_nat len + Z.of_nat n - 1) / Z.of_nat n).

(** The chunks computed over naturals, as the proofs use them. *)
Definition windows {A : Type} (l : list A) (n : nat) : list (list A) :=
  map (fun k => firstn n (skipn (k * n) l)) (seq 0 (chunk_count (length l) n)).

(** ** The device table *)

(** Modelled from the spec: the [GCMDevice] model ([models.py] is not part
    of the sources).  A registry entry is a token, an active flag and the
    identifier of the owning application; the table is the list of its
    rows, and no uniqueness of tokens is assumed. *)
Record GCMDevice : Type := {
  registration_id : string;
  active : bool;
  application_id : string
}.

Definition table : Type := list GCMDevice.

(** The query-set operations the module calls on [GCMDevice.objects]. *)
Module QuerySet.

(** [objects.filter(p).update(f)]: every matching row is rewritten. *)
Definition update (p : GCMDevice -> bool) (f : GCMDevice -> GCMDevice)
  (t : table) : table :=
  map (fun d => if p d then f d else d) t.

(** [objects.filter(p).exists()] *)
Definition exists_ (p : GCMDevice -> bool) (t : table) : bool := existsb p t.

(** [registration_id=token] *)
Definition registration_id_is (token : string) (d : GCMDevice) : bool :=
  String.eqb (registration_id d) token.

(** [registration_id__in=tokens] *)
Definition registration_id_in (tokens : list string) (d : GCMDevice) : bool :=
  existsb (String.eqb (registration_id d)) tokens.

(** [active=True] *)
Definition is_active (d : GCMDevice) : bool := active d.

(** [update(active=b)] *)
Definition set_active (b : bool) (d : GCMDevice) : GCMDevice :=
  {| registration_id := registration_id d;
     active := b;
     application_id := application_id d |}.

(** [update(registration_id=token)] *)
Definition set_registration_id (token : string) (d : GCMDevice) : GCMDevice :=
  {| registration_id := token;
     active := active d;
     application_id := application_id d |}.

End QuerySet.

(** ** Settings, the network and the state monad *)

(** [PUSH_NOTIFICATIONS_SETTINGS]: the key is [None] when it is not set. *)
Record settings : Type := {
  GCM_API_KEY : option string;
  GCM_POST_URL : string;
  GCM_MAX_RECIPIENTS : Z
}.

(** [Request(url, data, headers)] *)
Record http_request : Type := {
  req_url : string;
  req_data : string;
  req_headers : list (string * string)
}.

(** What [urlopen(request).read()] does: it returns a body, given here by
    what [json.loads] makes of it, or raises [HTTPError]. *)
Inductive http_reply : Type :=
| Body (parsed : gcm_response)
| HTTPFailure (status : Z).

(** The state a call runs in: the device table and the requests put on the
    network so far, oldest first. *)
Record world : Type := {
  devices : table;
  sent : list http_request
}.

Definition M (A : Type) : Type := world -> world * outcome A.

Definition ret {A : Type} (a : A) : M A := fun w => (w, Return a).

Definition raise {A : Type} (e : exn) : M A := fun w => (w, Raise e).

Definition bind {A B : Type} (c : M A) (k : A -> M B) : M B :=
  fun w =>
    match c w with
    | (w', Return a) => k a w'
    | (w', Raise e) => (w', Raise e)
    end.

Definition lift {A : Type} (o : outcome A) : M A := fun w => (w, o).

Definition modify_devices (f : table -> table) : M unit :=
  fun w => ({| devices := f (devices w); sent := sent w |}, Return tt).

Definition read_devices : M table := fun w => (w, Return (devices w)).

Declare Scope gcm_scope.
Delimit Scope gcm_scope with gcm.
Notation "x <- c ;; k" := (bind c (fun x => k))
  (at level 61, c at next level, right associativity) : gcm_scope.
Notation "c ;; k" := (bind c (fun _ => k))
  (at level 61, right associativity) : gcm_scope.
Local Open Scope gcm_scope.

(** [when cond: body] *)
Definition when (cond : bool) (body : M unit) : M unit :=
  if cond then body else ret tt.

(** [for x in xs: body(x)] *)
Fixpoint for_each {A : Type} (xs : list A) (body : A -> M unit) : M unit :=
  match xs with
  | [] => ret tt
  | x :: rest => body x ;; for_each rest body
  end.

(** ** Reconciliation *)

(** [_cm_handle_canonical_id(canonical_id, current_id)] *)
Definition _cm_handle_canonical_id (canonical_id current_id : string) : M unit :=
  devices <- read_devices ;;
  if QuerySet.exists_
       (fun d => QuerySet.registration_id_is canonical_id d && QuerySet.is_active d)
       devices
  then modify_devices
         (QuerySet.update (QuerySet.registration_id_is current_id)
            (QuerySet.set_active false))
  else modify_devices
         (QuerySet.update (QuerySet.registration_id_is current_id)
            (QuerySet.set_registration_id canonical_id)).

(** The three accumulators of the loop in [_cm_handle_response]. *)
Record scan_state : Type := {
  ids_to_remove : list string;
  old_new_ids : list (string * string);
  throw_error : bool
}.

Definition scan_init : scan_state :=
  {| ids_to_remove := []; old_new_ids := []; throw_error := false |}.

(** [registration_ids[index]] *)
Definition index_token (registration_ids : list string) (index : nat)
  : outcome string :=
  match nth_error registration_ids index with
  | Some t => Return t
  | None => Raise IndexError
  end.

(** [error in ("NotRegistered", "InvalidRegistration")] *)
Definition is_terminal (error : string) : bool :=
  String.eqb error "NotRegistered" || String.eqb error "InvalidRegistration".

(** One iteration of the loop body. *)
Definition scan_step (registration_ids : list string) (index : nat)
  (result : gcm_result) (st : scan_state) : outcome scan_state :=
  let error := res_error result in
  let after_error :=
    if Py.opt_truthy error then
      if match error with Some e => is_terminal e | None => false end then
        match index_token registration_ids index with
        | Return t =>
            Return {| ids_to_remove := ids_to_remove st ++ [t];
                      old_new_ids := old_new_ids st;
                      throw_error := throw_error st |}
        | Raise e => Raise e
        end
      else
        Return {| ids_to_remove := ids_to_remove st;
                  old_new_ids := old_new_ids st;
                  throw_error := true |}
    else Return st in
  match after_error with
  | Raise e => Raise e
  | Return st1 =>
      let new_id := res_registration_id result in
      match new_id with
      | Some n =>
          if Py.str_truthy n then
            match index_token registration_ids index with
            | Return t =>
                Return {| ids_to_remove := ids_to_remove st1;
                          old_new_ids := old_new_ids st1 ++ [(t, n)];
                          throw_error := throw_error st1 |}
            | Raise e => Raise e
            end
          else Return st1
      | None => Return st1
      end
  end.

(** [for index, result in enumerate(results): ...], from [index] on. *)
Fixpoint scan (registration_ids : list string) (index : nat)
  (rs : list gcm_result) (st : scan_state) : outcome scan_state :=
  match rs with
  | [] => Return st
  | result :: rest =>
      match scan_step registration_ids index result st with
      | Return st' => scan registration_ids (S index) rest st'
      | Raise e => Raise e
      end
  end.

(** [_cm_handle_response(registration_ids, response_data)] *)
Definition _cm_handle_response (registration_ids : list string)
  (response_data : gcm_response) : M gcm_response :=
  let response := response_data in
  if Py.truthy (failure response) || Py.truthy (canonical_ids response) then
    rs <- match results response with
          | Some rs => ret rs
          | None => raise (KeyError "results")
          end ;;
    st <- lift (scan registration_ids 0 rs scan_init) ;;
    when (match ids_to_remove st with [] => false | _ => true end)
      (modify_devices
         (QuerySet.update (QuerySet.registration_id_in (ids_to_remove st))
            (QuerySet.set_active false))) ;;
    for_each (old_new_ids st)
      (fun p => let '(old_id, new_id) := p in
                _cm_handle_canonical_id new_id old_id) ;;
    (if throw_error st then raise (GCMError response) else ret tt) ;;
    ret response
  else ret response.

(** ** Transport and dispatch *)

Section Gcm.

(** The settings in force and the gateway: [urlopen k request] is what the
    gateway answers to [request] when [k] requests went out before it. *)
Variable SETTINGS : settings.
Variable urlopen : nat -> http_request -> http_reply.

(** [urlopen(request).read()], with the request recorded. *)
Definition http_open (request : http_request) : M gcm_response :=
  fun w =>
    let w' := {| devices := devices w; sent := sent w ++ [request] |} in
    match urlopen (length (sent w)) request with
    | Body parsed => (w', Return parsed)
    | HTTPFailure status => (w', Raise (HTTPError status))
    end.

(** [_gcm_send(data, content_type)]; the [except HTTPError] clause logs
    and raises the same exception again.  The clause is modelled as under
    the module's Python 2 imports, which bind [HTTPError] (and [unicode]);
    the Python 3 imports of the module leave the name unbound, and there
    the clause itself fails, with [NameError], in place of the re-raise.
    In both cases the call ends with an exception after the request went
    out and before anything is read from the answer. *)
Definition _gcm_send (data content_type : string) : M gcm_response :=
  let key := GCM_API_KEY SETTINGS in
  if negb (Py.opt_truthy key) then raise ImproperlyConfigured
  else
    let headers :=
      [ ("Content-Type", content_type);
        ("Authorization", "key=" ++ match key with Some k => k | None => "" end);
        ("Content-Length", Py.str_of_int (Z.of_nat (String.length data))) ]%string in
    let request :=
      {| req_url := GCM_POST_URL SETTINGS; req_data := data; req_headers := headers |} in
    http_open request.

(** The dictionary [values] that [_gcm_send_json] serialises. *)
Definition envelope (registration_ids : list string)
  (data collapse_key delay_while_idle time_to_live : json)
  : list (string * json) :=
  let values := [("registration_ids"%string, JList (map JStr registration_ids))] in
  let values :=
    if Py.is_not_none data then Py.dict_set "data" data values else values in
  let values :=
    if Py.truthy collapse_key
    then Py.dict_set "collapse_key" collapse_key values else values in
  let values :=
    if Py.truthy delay_while_idle
    then Py.dict_set "delay_while_idle" delay_while_idle values else values in
  let values :=
    if Py.truthy time_to_live
    then Py.dict_set "time_to_live" time_to_live values else values in
  values.

(** [_gcm_send_json(registration_ids, data, collapse_key, delay_while_idle,
    time_to_live)]: [None] is returned for an empty list. *)
Definition _gcm_send_json (registration_ids : list string)
  (data collapse_key delay_while_idle time_to_live : json)
  : M (option gcm_response) :=
  match registration_ids with
  | [] => ret None
  | _ =>
      let values :=
        envelope registration_ids data collapse_key delay_while_idle time_to_live in
      let data := Json.dumps (JDict values) in
      result <- _gcm_send data "application/json" ;;
      response <- _cm_handle_response registration_ids result ;;
      ret (Some response)
  end.

(** [gcm_send_message]: the value of [_gcm_send_json] is dropped. *)
Definition gcm_send_message (registration_id : string)
  (data collapse_key delay_while_idle time_to_live : json) : M unit :=
  _gcm_send_json [registration_id] data collapse_key delay_while_idle time_to_live ;;
  ret tt.

(** What [gcm_send_bulk_message] returns: the value of one
    [_gcm_send_json], or the list [ret] of the values of the chunks. *)
Inductive bulk_value : Type :=
| Single (r : option gcm_response)
| PerChunk (rs : list (option gcm_response)).

(** [for chunk in chunks: ret.append(_gcm_send_json(chunk, *args))] *)
Fixpoint send_chunks (chunks : list (list string))
  (data collapse_key delay_while_idle time_to_live : json)
  (ret_list : list (option gcm_response)) : M (list (option gcm_response)) :=
  match chunks with
  | [] => ret ret_list
  | chunk :: rest =>
      r <- _gcm_send_json chunk data collapse_key delay_while_idle time_to_live ;;
      send_chunks rest data collapse_key delay_while_idle time_to_live
        (ret_list ++ [r])
  end.

(** [gcm_send_bulk_message] *)
Definition gcm_send_bulk_message (registration_ids : list string)
  (data collapse_key delay_while_idle time_to_live : json) : M bulk_value :=
  let max_recipients := GCM_MAX_RECIPIENTS SETTINGS in
  if max_recipients <? Py.len registration_ids then
    chunks <- lift (_chunks registration_ids max_recipients) ;;
    rs <- send_chunks chunks data collapse_key delay_while_idle time_to_live [] ;;
    ret (PerChunk rs)
  else
    r <- _gcm_send_json registration_ids data collapse_key delay_while_idle
           time_to_live ;;
    ret (Single r).

End Gcm.

(** ** The registry transformations, as functions on tables

    What the two reconciliation functions do to the device table, written
    without the monad; the theorems below relate them to the code. *)

(** [filter(registration_id__in=tokens).update(active=0)] *)
Definition deactivate_all (tokens : list string) (t : table) : table :=
  QuerySet.update (QuerySet.registration_id_in tokens) (QuerySet.set_active false) t.

(** An active row carries [token]. *)
Definition has_active (token : string) (t : table) : bool :=
  QuerySet.exists_
    (fun d => QuerySet.registration_id_is token d && QuerySet.is_active d) t.

(** The canonical-id rule for the pair [(old, new)]. *)
Definition resolve (t : table) (p : string * string) : table :=
  let '(old, new) := p in
  if has_active new t
  then QuerySet.update (QuerySet.registration_id_is old) (QuerySet.set_active false) t
  else QuerySet.update (QuerySet.registration_id_is old)
         (QuerySet.set_registration_id new) t.

(** The table after one reconciliation that marked [dead] and found the
    rename pairs [pairs]. *)
Definition reconcile (dead : list string) (pairs : list (string * string))
  (t : table) : table :=
  fold_left resolve pairs (deactivate_all dead t).

(** ** Reading a result entry *)

(** The entry carries one of the two codes that end a token's life. *)
Definition entry_terminal (r : gcm_result) : bool :=
  match res_error r with
  | Some e => is_terminal e
  | None => false
  end.

(** The entry carries an error code other than those two. *)
Definition entry_rejected (r : gcm_result) : bool :=
  match res_error r with
  | Some e => Py.str_truthy e && negb (is_terminal e)
  | None => false
  end.

(** The replacement token of the entry, if it carries one. *)
Definition entry_new_id (r : gcm_result) : option string :=
  match res_registration_id r with
  | Some n => if Py.str_truthy n then Some n else None
  | None => None
  end.

(** Tokens whose entry, at the same index, is terminal. *)
Definition terminal_tokens (tokens : list string) (rs : list gcm_result)
  : list string :=
  flat_map (fun tr => if entry_terminal (snd tr) then [fst tr] else [])
    (combine tokens rs).

(** Pairs (token, replacement) of the entries that carry a replacement, in
    index order. *)
Definition rename_pairs (tokens : list string) (rs : list gcm_result)
  : list (string * string) :=
  flat_map (fun tr => match entry_new_id (snd tr) with
                      | Some n => [(fst tr, n)]
                      | None => []
                      end)
    (combine tokens rs).

(** Some entry carries an error code that is not terminal. *)
Definition rejected (rs : list gcm_result) : bool := existsb entry_rejected rs.

(** The entry makes the loop read [registration_ids[index]]. *)
Definition needs_token (r : gcm_result) : bool :=
  entry_terminal r ||
  match entry_new_id r with Some _ => true | None => false end.

(** The pair [p] has nothing left to do on [t]: no row carries its old
    token, or an active row carries its canonical id and every row with
    the old token is inactive. *)
Definition settled (p : string * string) (t : table) : Prop :=
  (forall d, In d t -> registration_id d <> fst p) \/
  (has_active (snd p) t = true /\
   forall d, In d t -> registration_id d = fst p -> active d = false).

(** The pair [p] is settled on [t], or it names a token as its own
    canonical id and every row with that token is inactive. *)
Definition at_rest (p : string * string) (t : table) : Prop :=
  settled p t \/
  (fst p = snd p /\
   forall d, In d t -> registration_id d = fst p -> active d = false).

(** Every row whose token is in [tokens] is inactive. *)
Definition all_inactive (tokens : list string) (t : table) : Prop :=
  forall d, In d t -> In (registration_id d) tokens -> active d = false.

(** The top-level test of [_cm_handle_response]. *)
Definition needs_reconciling (response : gcm_response) : bool :=
  Py.truthy (failure response) || Py.truthy (canonical_ids response).

(** The device table a call of [_cm_handle_response] leaves, whatever way
    the call ends. *)
Definition reconciled_table (tokens : list string) (response : gcm_response)
  (t : table) : table :=
  if needs_reconciling response then
    match results response with
    | None => t
    | Some rs =>
        if existsb needs_token (skipn (length tokens) rs) then t
        else reconcile (terminal_tokens tokens rs) (rename_pairs tokens rs) t
    end
  else t.

(** The world with its device table replaced. *)
Definition with_devices (w : world) (t : table) : world :=
  {| devices := t; sent := sent w |}.

(** The accumulators after the loop has read [rs] against [tokens],
    starting from the accumulators [st]. *)
Definition scan_result (tokens : list string) (rs : list gcm_result)
  (st : scan_state) : scan_state :=
  {| ids_to_remove := ids_to_remove st ++ terminal_tokens tokens rs;
     old_new_ids := old_new_ids st ++ rename_pairs tokens rs;
     throw_error := throw_error st || rejected rs |}.

(** ** Dispatch, seen from outside *)

(** The request [_gcm_send_json] hands to [urlopen] for the chunk
    [registration_ids] when an API key is set. *)
Definition gcm_request (SETTINGS : settings) (registration_ids : list string)
  (data collapse_key delay_while_idle time_to_live : json) : http_request :=
  let body :=
    Json.dumps
      (JDict (envelope registration_ids data collapse_key delay_while_idle
                time_to_live)) in
  {| req_url := GCM_POST_URL SETTINGS;
     req_data := body;
     req_headers :=
       [ ("Content-Type", "application/json");
         ("Authorization",
          "key=" ++ match GCM_API_KEY SETTINGS with Some k => k | None => "" end);
         ("Content-Length", Py.str_of_int (Z.of_nat (String.length body))) ]%string |}.

(** [chunks_run chunks w rs w']: sending the chunks one after the other
    from the world [w], each send returns; [rs] are the values returned, in
    order, and [w'] is the world after the last one. *)
Inductive chunks_run (SETTINGS : settings) (urlopen : nat -> http_request -> http_reply)
  (data collapse_key delay_while_idle time_to_live : json)
  : list (list string) -> world -> list (option gcm_response) -> world -> Prop :=
| chunks_run_nil (w : world) :
    chunks_run SETTINGS urlopen data collapse_key delay_while_idle time_to_live
      [] w [] w
| chunks_run_cons (chunk : list string) (rest : list (list string))
    (w w1 w' : world) (r : option gcm_response) (rs : list (option gcm_response)) :
    _gcm_send_json SETTINGS urlopen chunk data collapse_key delay_while_idle
      time_to_live w = (w1, Return r) ->
    chunks_run SETTINGS urlopen data collapse_key delay_while_idle time_to_live
      rest w1 rs w' ->
    chunks_run SETTINGS urlopen data collapse_key delay_while_idle time_to_live
      (chunk :: rest) w (r :: rs) w'.

(** The value of a call with its result dropped, as a caller that ignores
    the return value sees it. *)
Definition forget {A : Type} (r : world * outcome A) : world * outcome unit :=
  match r with
  | (w, Return _) => (w, Return tt)
  | (w, Raise e) => (w, Raise e)
  end.

(** ** Concrete data for the examples *)

Module Sample.

Local Open Scope string_scope.

Definition dev (token : string) (is_active : bool) : GCMDevice :=
  {| registration_id := token; active := is_active; application_id := "app" |}.

Definition entry_ok : gcm_result :=
  {| res_error := None; res_registration_id := None |}.

Definition entry_error (code : string) : gcm_result :=
  {| res_error := Some code; res_registration_id := None |}.

Definition entry_renamed (new_id : string) : gcm_result :=
  {| res_error := None; res_registration_id := Some new_id |}.

(** A response whose counters are as the gateway would set them for
    [failed] failures and [renamed] canonical ids. *)
Definition response_of (failed renamed : Z) (rs : list gcm_result) : gcm_response :=
  {| failure := JNum failed; canonical_ids := JNum renamed; results := Some rs |}.

Definition world_of (t : table) : world := {| devices := t; sent := [] |}.

Definition settings_of (key : option string) (max_recipients : Z) : settings :=
  {| GCM_API_KEY := key;
     GCM_POST_URL := "https://android.googleapis.com/gcm/send";
     GCM_MAX_RECIPIENTS := max_recipients |}.

(** The reconciliation example of the specification: tokens A, B, C with
    results "NotRegistered", nothing, and the replacement "NEW". *)
Definition tokens_abc : list string := ["A"; "B"; "C"].

Definition results_abc : list gcm_result :=
  [entry_error "NotRegistered"; entry_ok; entry_renamed "NEW"].

Definition response_abc : gcm_response := response_of 1 1 results_abc.

Definition world_abc : world := world_of [dev "A" true; dev "B" true; dev "C" true].

(** A response for tokens A, B, C that reports B, a healthy token of the
    same chunk, as the canonical id of A, and C as its own canonical id. *)
Definition response_duplicate : gcm_response :=
  response_of 0 2 [entry_renamed "B"; entry_ok; entry_renamed "C"].

(** A configured gateway with the given limit. *)
Definition configured (max_recipients : Z) : settings :=
  settings_of (Some "secret") max_recipients.

Definition payload : json := JDict [("message", JStr "hello")].

(** [n] distinct tokens t0, t1, ... *)
Definition many_tokens (n : nat) : list string :=
  map (fun k => "t" ++ Py.str_of_int (Z.of_nat k)) (seq 0 n).

(** The answer to a chunk of [n] tokens that the gateway accepted whole. *)
Definition accepted (n : nat) : gcm_response := response_of 0 0 (repeat entry_ok n).

(** The answer to a chunk of [n] tokens whose first token met
    "Unavailable". *)
Definition unavailable (n : nat) : gcm_response :=
  response_of 1 0 (entry_error "Unavailable" :: repeat entry_ok (n - 1)).

(** A gateway that answers the second request it gets with [unavailable]
    and accepts every other request; [size] is the size of a full chunk. *)
Definition second_fails (size : nat) (k : nat) (request : http_request) : http_reply :=
  if Nat.eqb k 1 then Body (unavailable size) else Body (accepted size).

(** A gateway that accepts everything, with no result entries to read. *)
Definition accepts_all (k : nat) (request : http_request) : http_reply :=
  Body (response_of 0 0 []).

(** A response for tokens A, B, C: A is not registered any more, B met
    "Unavailable", C has the canonical id "NEW". *)
Definition response_mixed : gcm_response :=
  response_of 2 1
    [entry_error "NotRegistered"; entry_error "Unavailable"; entry_renamed "NEW"].

(** A gateway that answers every request with [response_mixed]. *)
Definition answers_mixed (k : nat) (request : http_request) : http_reply :=
  Body response_mixed.

End Sample.

(** ** The management command [prune_devices]

<<
def handle(self, *args, **options):
    from push_notifications.models import APNSDevice, get_expired_tokens
    for app in args:
        expired = get_expired_tokens(app_name=app)
        devices = APNSDevice.objects.filter(registration_id__in=expired)
        for d in devices:
            self.stdout.write('deactivating [%s]' % d.registration_id)
            d.active = False
            d.save()
        self.stdout.write(u'deactivated {} devices for app {}'.format(len(devices), app))
>> *)

Module Prune.

Local Open Scope string_scope.

(** Modelled from the spec: the [APNSDevice] model ([models.py] is not part
    of the sources): the token and the active flag the command reads and
    writes, and, as for [GCMDevice], the owning application for the rest
    of a row.  The table is the list of its rows; the position of a row
    stands for its primary key. *)
Record APNSDevice : Type := {
  registration_id : string;
  active : bool;
  application_id : string
}.

(** The state the command runs in: the table, what was written to standard
    output (one entry per call of [write], oldest first) and the number of
    queries made to the feedback service. *)
Record state : Type := {
  devices : list APNSDevice;
  stdout : list string;
  asked : nat
}.

(** [self.stdout.write(text)] *)
Definition write (text : string) (st : state) : state :=
  {| devices := devices st; stdout := stdout st ++ [text]; asked := asked st |}.

(** [d.save()] for the object loaded from the row at [pk]: the row gets
    the fields of the object. *)
Fixpoint save_at (pk : nat) (d : APNSDevice) (t : list APNSDevice)
  : list APNSDevice :=
  match t, pk with
  | [], _ => []
  | _ :: rest, O => d :: rest
  | r :: rest, S pk' => r :: save_at pk' d rest
  end.

Definition save (pk : nat) (d : APNSDevice) (st : state) : state :=
  {| devices := save_at pk d (devices st); stdout := stdout st; asked := asked st |}.

(** [registration_id__in=tokens] *)
Definition registration_id_in (tokens : list string) (d : APNSDevice) : bool :=
  existsb (String.eqb (registration_id d)) tokens.

(** The objects of [APNSDevice.objects.filter(registration_id__in=tokens)],
    each with its primary key, in table order; [pk] is the key of the
    first row of [t]. *)
Fixpoint select (tokens : list string) (pk : nat) (t : list APNSDevice)
  : list (nat * APNSDevice) :=
  match t with
  | [] => []
  | d :: rest =>
      if registration_id_in tokens d
      then (pk, d) :: select tokens (S pk) rest
      else select tokens (S pk) rest
  end.

(** [d.active = False] *)
Definition set_inactive (d : APNSDevice) : APNSDevice :=
  {| registration_id := registration_id d;
     active := false;
     application_id := application_id d |}.

(** [for d in devices: ...] *)
Fixpoint deactivate_each (objects : list (nat * APNSDevice)) (st : state) : state :=
  match objects with
  | [] => st
  | (pk, d) :: rest =>
      let st := write ("deactivating [" ++ registration_id d ++ "]") st in
      let d := set_inactive d in
      let st := save pk d st in
      deactivate_each rest st
  end.

Section Command.

(** Modelled from the spec: [get_expired_tokens(app_name=app)] of
    [models.py], which is not part of the sources.  Nothing is assumed of
    it: it is the answer of the feedback service to a query for an
    application, given the number of queries made before, and [None] when
    the call raises. *)
Variable get_expired_tokens : nat -> string -> option (list string).

(** The body of [for app in args]; the flag tells whether it ended
    normally. *)
Definition handle_app (app : string) (st : state) : state * bool :=
  let answer := get_expired_tokens (asked st) app in
  let st := {| devices := devices st; stdout := stdout st; asked := S (asked st) |} in
  match answer with
  | None => (st, false)
  | Some expired =>
      let objects := select expired 0 (devices st) in
      let st := deactivate_each objects st in
      (write ("deactivated " ++ Py.str_of_int (Py.len objects) ++
              " devices for app " ++ app) st, true)
  end.

(** [handle(self, *args, **options)]; the flag is false when the command
    ended with the exception of a feedback query. *)
Fixpoint handle (args : list string) (st : state) : state * bool :=
  match args with
  | [] => (st, true)
  | app :: rest =>
      match handle_app app st with
      | (st, true) => handle rest st
      | (st, false) => (st, false)
      end
  end.

(** The queries of a run that were answered, each application with the
    tokens reported for it: those before the first query that raises. *)
Fixpoint answered (n : nat) (args : list string) : list (string * list string) :=
  match args with
  | [] => []
  | app :: rest =>
      match get_expired_tokens n app with
      | None => []
      | Some expired => (app, expired) :: answered (S n) rest
      end
  end.

End Command.

(** A row after the loop over the objects selected by [tokens]. *)
Definition pruned (tokens : list string) (d : APNSDevice) : APNSDevice :=
  if registration_id_in tokens d then set_inactive d else d.

(** The line written for an object of the loop. *)
Definition line (d : APNSDevice) : string :=
  "deactivating [" ++ registration_id d ++ "]".

(** What the command writes for one answered query, read off a table. *)
Definition report (t : list APNSDevice) (query : string * list string)
  : list string :=
  map line (filter (registration_id_in (snd query)) t) ++
  ["deactivated " ++
   Py.str_of_int (Py.len (filter (registration_id_in (snd query)) t)) ++
   " devices for app " ++ fst query].

(** A sample run: the feedback service reports B and C (B twice) for
    the application "news" and A for "mail"; a query for any other
    application raises. *)
Definition sample_feedback (n : nat) (app : string) : option (list string) :=
  if String.eqb app "news" then Some ["B"; "C"; "B"]
  else if String.eqb app "mail" then Some ["A"]
  else None.

Definition sample_row (token : string) (is_active : bool) : APNSDevice :=
  {| registration_id := token; active := is_active; application_id := "app" |}.

Definition sample_state : state :=
  {| devices := [sample_row "A" true; sample_row "B" false; sample_row "C" true;
                 sample_row "D" true; sample_row "B" true];
     stdout := [];
     asked := 0 |}.

End Prune.

(** * Theorems *)

(** *** Facts about slices and ranges *)

Lemma slice_window {A : Type} (l : list A) (i n : Z) :
  0 <= i <= Py.len l -> 0 <= n ->
  Py.slice l i (i + n) = firstn (Z.to_nat n) (skipn (Z.to_nat i) l).
Proof.
  intros Hi Hn. unfold Py.slice, Py.clamp, Py.len in *.
  destruct (i <? 0) eqn:Ei; [apply Z.ltb_lt in Ei; lia|].
  destruct (i + n <? 0) eqn:Ej; [apply Z.ltb_lt in Ej; lia|].
  rewrite (Z.min_l i) by lia.
  destruct (Z.le_gt_cases (i + n) (Z.of_nat (length l))) as [Hle|Hgt].
  - rewrite Z.min_l by lia. f_equal. lia.
  - rewrite Z.min_r by lia.
    rewrite !firstn_all2; auto; rewrite length_skipn; lia.
Qed.

Lemma range_step_pos (stop step : Z) :
  0 < step ->
  Py.range 0 stop step =
  Some (map (fun k => Z.of_nat k * step) (seq 0 (Z.to_nat ((stop + step - 1) / step)))).
Proof.
  intros Hs. unfold Py.range.
  destruct (step =? 0) eqn:E0; [apply Z.eqb_eq in E0; lia|].
  destruct (0 <? step) eqn:E1; [|apply Z.ltb_ge in E1; lia].
  rewrite Z.sub_0_r. reflexivity.
Qed.

Lemma chunk_count_bounds (len n : nat) :
  (0 < n)%nat ->
  (len <= chunk_count len n * n)%nat /\
  (forall k, (k < chunk_count len n)%nat -> (k * n < len)%nat).
Proof.
  intros Hn. unfold chunk_count.
  set (q := (Z.of_nat len + Z.of_nat n - 1) / Z.of_nat n).
  assert (Hq : 0 <= q) by (apply Z.div_pos; lia).
  pose proof (Z.mul_div_le (Z.of_nat len + Z.of_nat n - 1) (Z.of_nat n) ltac:(lia)) as Hlo.
  pose proof (Z.mul_succ_div_gt (Z.of_nat len + Z.of_nat n - 1) (Z.of_nat n) ltac:(lia)) as Hhi.
  fold q in Hlo, Hhi. split.
  - nia.
  - intros k Hk. nia.
Qed.

Lemma chunks_windows {A : Type} (l : list A) (n : Z) :
  1 <= n -> _chunks l n = Return (windows l (Z.to_nat n)).
Proof.
  intros Hn. unfold _chunks, Py.len. rewrite range_step_pos by lia.
  f_equal. unfold windows, chunk_count. rewrite Z2Nat.id by lia.
  rewrite map_map. apply map_ext_in. intros k Hk.
  apply in_seq in Hk.
  destruct (chunk_count_bounds (length l) (Z.to_nat n) ltac:(lia)) as [_ Hlt].
  unfold chunk_count in Hlt. rewrite Z2Nat.id in Hlt by lia.
  specialize (Hlt k ltac:(lia)).
  rewrite slice_window by (unfold Py.len; nia).
  f_equal. f_equal. nia.
Qed.

Lemma concat_windows_prefix {A : Type} (l : list A) (n c : nat) :
  concat (map (fun k => firstn n (skipn (k * n) l)) (seq 0 c)) = firstn (c * n) l.
Proof.
  induction c as [|c IH].
  - reflexivity.
  - rewrite seq_S, map_app, concat_app, IH. simpl.
    rewrite app_nil_r.
    rewrite <- (firstn_skipn (c * n) (firstn (n + c * n) l)).
    rewrite firstn_firstn. replace (Nat.min (c * n) (n + c * n)) with (c * n)%nat by lia.
    f_equal. rewrite skipn_firstn_comm. f_equal. lia.
Qed.

Lemma windows_concat {A : Type} (l : list A) (n : nat) :
  (0 < n)%nat -> concat (windows l n) = l.
Proof.
  intros Hn. unfold windows. rewrite concat_windows_prefix.
  apply firstn_all2. apply chunk_count_bounds; assumption.
Qed.

Lemma windows_length {A : Type} (l : list A) (n : nat) :
  length (windows l n) = chunk_count (length l) n.
Proof. unfold windows. now rewrite length_map, length_seq. Qed.

Lemma windows_nth {A : Type} (l : list A) (n k : nat) :
  (k < chunk_count (length l) n)%nat ->
  nth k (windows l n) [] = firstn n (skipn (k * n) l).
Proof.
  intros Hk. unfold windows.
  set (f := fun k => firstn n (skipn (k * n) l)).
  rewrite (nth_indep _ [] (f 0%nat))
    by (rewrite length_map, length_seq; exact Hk).
  rewrite map_nth, seq_nth by exact Hk. reflexivity.
Qed.

Lemma windows_nth_length {A : Type} (l : list A) (n k : nat) :
  (0 < n)%nat -> (k < chunk_count (length l) n)%nat ->
  length (nth k (windows l n) []) = Nat.min n (length l - k * n).
Proof.
  intros Hn Hk. rewrite windows_nth by exact Hk.
  rewrite length_firstn, length_skipn. reflexivity.
Qed.

(** C6 (batcher contract).  For every list and every chunk size [n >= 1],
    [_chunks] returns normally; its chunks concatenate to the input (so no
    element is dropped, repeated or moved); chunk [k] is the contiguous
    window of the input that starts at offset [k * n]; every chunk but the
    last has exactly [n] elements and the last one has between 1 and [n];
    the empty list yields no chunk. *)
Theorem chunks_partition {A : Type} (l : list A) (n : Z) :
  1 <= n ->
  exists cs : list (list A),
    _chunks l n = Return cs /\
    concat cs = l /\
    (forall k, (k < length cs)%nat ->
       nth k cs [] = firstn (Z.to_nat n) (skipn (k * Z.to_nat n) l)) /\
    (forall k, (S k < length cs)%nat -> Py.len (nth k cs []) = n) /\
    (forall k, (S k = length cs)%nat -> 1 <= Py.len (nth k cs []) <= n) /\
    (l = [] -> cs = []).
Proof.
  intros Hn. exists (windows l (Z.to_nat n)).
  assert (Hpos : (0 < Z.to_nat n)%nat) by lia.
  destruct (chunk_count_bounds (length l) (Z.to_nat n) Hpos) as [Hcover Hlt].
  split; [apply chunks_windows; exact Hn|].
  split; [apply windows_concat; exact Hpos|].
  rewrite windows_length. repeat split.
  - intros k Hk. apply windows_nth; exact Hk.
  - intros k Hk. unfold Py.len.
    rewrite windows_nth_length by lia.
    specialize (Hlt (S k) Hk). simpl in Hlt. lia.
  - specialize (Hlt k ltac:(lia)).
    unfold Py.len. rewrite windows_nth_length by lia. lia.
  - unfold Py.len. rewrite windows_nth_length by lia. lia.
  - intros ->. unfold windows.
    destruct (chunk_count (length (@nil A)) (Z.to_nat n)) as [|c] eqn:Ec; [reflexivity|].
    specialize (Hlt 0%nat ltac:(lia)). simpl in Hlt. lia.
Qed.

Lemma chunks_partition_witness :
  exists cs : list (list Z),
    _chunks [1; 2; 3; 4; 5] 2 = Return cs /\
    concat cs = [1; 2; 3; 4; 5] /\
    (forall k, (k < length cs)%nat ->
       nth k cs [] = firstn (Z.to_nat 2) (skipn (k * Z.to_nat 2) [1; 2; 3; 4; 5])) /\
    (forall k, (S k < length cs)%nat -> Py.len (nth k cs []) = 2) /\
    (forall k, (S k = length cs)%nat -> 1 <= Py.len (nth k cs []) <= 2) /\
    ([1; 2; 3; 4; 5] = [] -> cs = []).
Proof. apply (chunks_partition [1; 2; 3; 4; 5] 2). lia. Defined.

(** ** Reconciliation: the code and the table transformations *)

Lemma with_devices_same (w : world) : with_devices w (devices w) = w.
Proof. destruct w; reflexivity. Qed.

Lemma handle_canonical_id_run (canonical_id current_id : string) (w : world) :
  _cm_handle_canonical_id canonical_id current_id w =
  (with_devices w (resolve (devices w) (current_id, canonical_id)), Return tt).
Proof.
  unfold _cm_handle_canonical_id, bind, read_devices, resolve, has_active.
  destruct (QuerySet.exists_ _ (devices w)); reflexivity.
Qed.

Lemma for_each_pairs_run (pairs : list (string * string)) (w : world) :
  for_each pairs
    (fun p => let '(old_id, new_id) := p in _cm_handle_canonical_id new_id old_id) w =
  (with_devices w (fold_left resolve pairs (devices w)), Return tt).
Proof.
  revert w. induction pairs as [|[old new] rest IH]; intros w.
  - simpl. unfold ret. now rewrite with_devices_same.
  - simpl. unfold bind at 1. rewrite handle_canonical_id_run.
    rewrite IH. reflexivity.
Qed.

Lemma deactivate_none (t : table) : deactivate_all [] t = t.
Proof.
  unfold deactivate_all, QuerySet.update, QuerySet.registration_id_in.
  simpl. apply map_id.
Qed.

Lemma is_terminal_truthy (e : string) : is_terminal e = true -> Py.str_truthy e = true.
Proof. destruct e; [discriminate|reflexivity]. Qed.

Lemma scan_step_in_range (tokens : list string) (index : nat) (t : string)
  (r : gcm_result) (st : scan_state) :
  nth_error tokens index = Some t ->
  scan_step tokens index r st = Return (scan_result [t] [r] st).
Proof.
  intros Ht. unfold scan_step, scan_result, index_token, terminal_tokens,
    rename_pairs, rejected, entry_terminal, entry_rejected, entry_new_id.
  rewrite Ht. destruct st as [ids pairs thr]. destruct r as [err new]. simpl.
  destruct err as [e|]; simpl.
  - destruct (is_terminal e) eqn:Et; simpl.
    + rewrite (is_terminal_truthy e Et). simpl.
      destruct new as [n|]; simpl; [destruct (Py.str_truthy n); simpl|];
        rewrite ?app_nil_r, ?orb_false_r; reflexivity.
    + destruct (Py.str_truthy e); simpl;
        (destruct new as [n|]; simpl; [destruct (Py.str_truthy n); simpl|]);
        rewrite ?app_nil_r, ?orb_false_r, ?orb_true_r; reflexivity.
  - destruct new as [n|]; simpl; [destruct (Py.str_truthy n); simpl|];
      rewrite ?app_nil_r, ?orb_false_r; reflexivity.
Qed.

Lemma scan_result_cons (t : string) (ts : list string) (r : gcm_result)
  (rs : list gcm_result) (st : scan_state) :
  scan_result ts rs (scan_result [t] [r] st) = scan_result (t :: ts) (r :: rs) st.
Proof.
  unfold scan_result, terminal_tokens, rename_pairs, rejected. simpl.
  rewrite !app_nil_r, orb_false_r, <- !app_assoc, orb_assoc. reflexivity.
Qed.

Lemma scan_run (tokens : list string) (rs : list gcm_result) :
  forall (index : nat) (st : scan_state),
    (index + length rs <= length tokens)%nat ->
    scan tokens index rs st = Return (scan_result (skipn index tokens) rs st).
Proof.
  induction rs as [|r rs IH]; intros index st Hlen.
  - simpl. unfold scan_result, terminal_tokens, rename_pairs, rejected.
    rewrite combine_nil. simpl. rewrite !app_nil_r, orb_false_r.
    destruct st; reflexivity.
  - simpl in Hlen.
    destruct (nth_error tokens index) as [t|] eqn:Ht;
      [|apply nth_error_None in Ht; lia].
    simpl. rewrite (scan_step_in_range tokens index t r st Ht).
    rewrite IH by lia. rewrite scan_result_cons. f_equal. f_equal.
    rewrite <- (firstn_skipn index tokens) in Ht.
    rewrite nth_error_app2 in Ht by (rewrite length_firstn; lia).
    rewrite length_firstn in Ht.
    replace (index - Nat.min index (length tokens))%nat with 0%nat in Ht by lia.
    destruct (skipn index tokens) as [|t' rest] eqn:Es; [discriminate|].
    simpl in Ht. injection Ht as ->.
    replace (S index) with (1 + index)%nat by lia.
    rewrite <- skipn_skipn, Es. reflexivity.
Qed.

(** What a whole call does once the loop has come to [st]. *)
Lemma handle_response_after_scan (tokens : list string)
  (response : gcm_response) (rs : list gcm_result) (st : scan_state) (w : world) :
  needs_reconciling response = true ->
  results response = Some rs ->
  scan tokens 0 rs scan_init = Return st ->
  _cm_handle_response tokens response w =
  (with_devices w (reconcile (ids_to_remove st) (old_new_ids st) (devices w)),
   if throw_error st then Raise (GCMError response) else Return response).
Proof.
  intros Hgate Hrs Hscan. unfold _cm_handle_response.
  unfold needs_reconciling in Hgate. rewrite Hgate, Hrs.
  unfold bind at 1. unfold ret at 1. unfold bind at 1. unfold lift. rewrite Hscan.
  unfold reconcile.
  assert (Hd : forall w0 : world,
             when (match ids_to_remove st with [] => false | _ => true end)
               (modify_devices
                  (QuerySet.update (QuerySet.registration_id_in (ids_to_remove st))
                     (QuerySet.set_active false))) w0 =
             (with_devices w0 (deactivate_all (ids_to_remove st) (devices w0)), Return tt)).
  { intros w0. destruct (ids_to_remove st) eqn:E.
    - simpl. unfold ret. now rewrite deactivate_none, with_devices_same.
    - reflexivity. }
  unfold bind at 1. rewrite Hd.
  unfold bind at 1. rewrite for_each_pairs_run. simpl.
  destruct (throw_error st); reflexivity.
Qed.

Lemma handle_response_scan_raises (tokens : list string)
  (response : gcm_response) (rs : list gcm_result) (e : exn) (w : world) :
  needs_reconciling response = true ->
  results response = Some rs ->
  scan tokens 0 rs scan_init = Raise e ->
  _cm_handle_response tokens response w = (w, Raise e).
Proof.
  intros Hgate Hrs Hscan. unfold _cm_handle_response.
  unfold needs_reconciling in Hgate. rewrite Hgate, Hrs.
  unfold bind at 1. unfold ret at 1. unfold bind at 1. unfold lift. rewrite Hscan.
  reflexivity.
Qed.

Lemma scan_init_result (tokens : list string) (rs : list gcm_result) :
  scan_result tokens rs scan_init =
  {| ids_to_remove := terminal_tokens tokens rs;
     old_new_ids := rename_pairs tokens rs;
     throw_error := rejected rs |}.
Proof. reflexivity. Qed.

(** A call on a response that passes the top-level test, whose results are
    no longer than the token list. *)
Lemma handle_response_run (tokens : list string) (response : gcm_response)
  (rs : list gcm_result) (w : world) :
  needs_reconciling response = true ->
  results response = Some rs ->
  (length rs <= length tokens)%nat ->
  _cm_handle_response tokens response w =
  (with_devices w
     (reconcile (terminal_tokens tokens rs) (rename_pairs tokens rs) (devices w)),
   if rejected rs then Raise (GCMError response) else Return response).
Proof.
  intros Hgate Hrs Hlen.
  rewrite (handle_response_after_scan tokens response rs
             (scan_result tokens rs scan_init) w Hgate Hrs).
  - reflexivity.
  - rewrite (scan_run tokens rs 0 scan_init) by (simpl; exact Hlen). reflexivity.
Qed.

(** *** Reading the accumulators *)

Lemma in_combine_nth {A B : Type} (l : list A) (l' : list B) (a : A) (b : B) :
  In (a, b) (combine l l') <->
  exists i, nth_error l i = Some a /\ nth_error l' i = Some b.
Proof.
  revert l'. induction l as [|x l IH]; intros l'.
  - simpl. split; [tauto|]. intros [i [Hi _]]. destruct i; discriminate.
  - destruct l' as [|y l'].
    + simpl. split; [tauto|]. intros [i [_ Hi]]. destruct i; discriminate.
    + simpl. rewrite IH. split.
      * intros [Heq | [i Hi]].
        -- injection Heq as -> ->. exists 0%nat. split; reflexivity.
        -- exists (S i). exact Hi.
      * intros [[|i] [H1 H2]]; simpl in *.
        -- left. congruence.
        -- right. exists i. split; assumption.
Qed.

Lemma terminal_tokens_in (tokens : list string) (rs : list gcm_result) (t : string) :
  In t (terminal_tokens tokens rs) <->
  exists i r e,
    nth_error tokens i = Some t /\ nth_error rs i = Some r /\
    res_error r = Some e /\ is_terminal e = true.
Proof.
  unfold terminal_tokens. rewrite in_flat_map. split.
  - intros [[t' r] [Hin Ht]]. simpl in Ht.
    unfold entry_terminal in Ht.
    destruct (res_error r) as [e|] eqn:Ee; [|contradiction].
    destruct (is_terminal e) eqn:Et; [|contradiction].
    destruct Ht as [-> | []].
    apply in_combine_nth in Hin. destruct Hin as [i [H1 H2]].
    exists i, r, e. repeat split; assumption.
  - intros [i [r [e [H1 [H2 [H3 H4]]]]]].
    exists (t, r). split.
    + apply in_combine_nth. exists i. split; assumption.
    + simpl. unfold entry_terminal. rewrite H3, H4. left. reflexivity.
Qed.

Lemma rename_pairs_in (tokens : list string) (rs : list gcm_result)
  (old new : string) :
  In (old, new) (rename_pairs tokens rs) <->
  exists i r,
    nth_error tokens i = Some old /\ nth_error rs i = Some r /\
    res_registration_id r = Some new /\ new <> EmptyString.
Proof.
  unfold rename_pairs. rewrite in_flat_map. split.
  - intros [[t' r] [Hin Ht]]. simpl in Ht.
    unfold entry_new_id in Ht.
    destruct (res_registration_id r) as [n|] eqn:En; [|contradiction].
    destruct n as [|c n]; simpl in Ht; [contradiction|].
    destruct Ht as [Heq | []]. injection Heq as -> <-.
    apply in_combine_nth in Hin. destruct Hin as [i [H1 H2]].
    exists i, r. repeat split; try assumption. discriminate.
  - intros [i [r [H1 [H2 [H3 H4]]]]].
    exists (old, r). split.
    + apply in_combine_nth. exists i. split; assumption.
    + simpl. unfold entry_new_id. rewrite H3.
      destruct new; [congruence|]. simpl. left. reflexivity.
Qed.

Lemma rejected_iff (rs : list gcm_result) :
  rejected rs = true <->
  exists r e,
    In r rs /\ res_error r = Some e /\ e <> EmptyString /\ is_terminal e = false.
Proof.
  unfold rejected. rewrite existsb_exists. split.
  - intros [r [Hin Hr]]. unfold entry_rejected in Hr.
    destruct (res_error r) as [e|] eqn:Ee; [|discriminate].
    apply andb_true_iff in Hr. destruct Hr as [H1 H2].
    exists r, e. repeat split; try assumption.
    + intros ->. discriminate.
    + now apply negb_true_iff.
  - intros [r [e [Hin [He [Hne Ht]]]]]. exists r. split; [assumption|].
    unfold entry_rejected. rewrite He, Ht.
    destruct e; [congruence|reflexivity].
Qed.

(** *** The claims on [_cm_handle_response] *)

(** C10 (the top-level test).  When the response's "failure" and
    "canonical_ids" are both false as Python reads them (absent, zero,
    null, empty), [_cm_handle_response] returns the response it was given,
    leaves the device table and the network log as they were and raises
    nothing, whatever the results array holds, or even if it is absent. *)
Theorem handle_response_gate_closed (tokens : list string)
  (response : gcm_response) (w : world) :
  Py.truthy (failure response) = false ->
  Py.truthy (canonical_ids response) = false ->
  _cm_handle_response tokens response w = (w, Return response).
Proof.
  intros Hf Hc. unfold _cm_handle_response. rewrite Hf, Hc. reflexivity.
Qed.

(** C2, amended (classification of entries and the rejection error).  For
    a response that passes the top-level test (its "failure" or
    "canonical_ids" is true as Python reads it), with a results array as
    long as the token list: the loop runs to its end; the tokens marked for
    deactivation are exactly those whose entry carries "NotRegistered" or
    "InvalidRegistration"; the call is marked failed exactly when some
    entry carries a non-empty error code other than these two; the device
    table ends as the marked deactivations followed by the renames leave
    it, whether or not the call fails; and the call raises [GCMError] with
    the whole response exactly when it was marked failed, returning the
    response otherwise. *)
Theorem handle_response_verdict (tokens : list string)
  (response : gcm_response) (rs : list gcm_result) (w : world) :
  needs_reconciling response = true ->
  results response = Some rs ->
  length rs = length tokens ->
  exists st : scan_state,
    scan tokens 0 rs scan_init = Return st /\
    (forall t, In t (ids_to_remove st) <->
       exists i r e,
         nth_error tokens i = Some t /\ nth_error rs i = Some r /\
         res_error r = Some e /\ is_terminal e = true) /\
    (throw_error st = true <->
       exists r e,
         In r rs /\ res_error r = Some e /\ e <> EmptyString /\
         is_terminal e = false) /\
    _cm_handle_response tokens response w =
      (with_devices w (reconcile (ids_to_remove st) (old_new_ids st) (devices w)),
       if throw_error st then Raise (GCMError response) else Return response).
Proof.
  intros Hgate Hrs Hlen.
  exists (scan_result tokens rs scan_init).
  assert (Hscan : scan tokens 0 rs scan_init = Return (scan_result tokens rs scan_init)).
  { rewrite (scan_run tokens rs 0 scan_init) by (simpl; lia). reflexivity. }
  split; [exact Hscan|].
  rewrite scan_init_result. simpl.
  split; [intros t; apply terminal_tokens_in|].
  split; [apply rejected_iff|].
  apply (handle_response_after_scan tokens response rs _ w Hgate Hrs Hscan).
Qed.

Lemma handle_response_gate_closed_witness :
  _cm_handle_response ["A"%string]
    (Sample.response_of 0 0 [Sample.entry_error "Unavailable"])
    (Sample.world_of [Sample.dev "A" true]) =
  (Sample.world_of [Sample.dev "A" true],
   Return (Sample.response_of 0 0 [Sample.entry_error "Unavailable"])).
Proof. apply handle_response_gate_closed; reflexivity. Defined.

Lemma handle_response_verdict_witness :
  exists st : scan_state,
    scan ["A"; "B"]%string 0
      [Sample.entry_error "NotRegistered"; Sample.entry_error "Unavailable"]
      scan_init = Return st /\
    (forall t, In t (ids_to_remove st) <->
       exists i r e,
         nth_error ["A"; "B"]%string i = Some t /\
         nth_error [Sample.entry_error "NotRegistered";
                    Sample.entry_error "Unavailable"] i = Some r /\
         res_error r = Some e /\ is_terminal e = true) /\
    (throw_error st = true <->
       exists r e,
         In r [Sample.entry_error "NotRegistered"; Sample.entry_error "Unavailable"] /\
         res_error r = Some e /\ e <> EmptyString /\ is_terminal e = false) /\
    _cm_handle_response ["A"; "B"]%string
      (Sample.response_of 2 0
         [Sample.entry_error "NotRegistered"; Sample.entry_error "Unavailable"])
      (Sample.world_of [Sample.dev "A" true; Sample.dev "B" true]) =
      (with_devices (Sample.world_of [Sample.dev "A" true; Sample.dev "B" true])
         (reconcile (ids_to_remove st) (old_new_ids st)
            [Sample.dev "A" true; Sample.dev "B" true]),
       if throw_error st
       then Raise (GCMError
                     (Sample.response_of 2 0
                        [Sample.entry_error "NotRegistered";
                         Sample.entry_error "Unavailable"]))
       else Return
              (Sample.response_of 2 0
                 [Sample.entry_error "NotRegistered";
                  Sample.entry_error "Unavailable"])).
Proof.
  apply (handle_response_verdict ["A"; "B"]%string
           (Sample.response_of 2 0
              [Sample.entry_error "NotRegistered"; Sample.entry_error "Unavailable"])
           [Sample.entry_error "NotRegistered"; Sample.entry_error "Unavailable"]
           (Sample.world_of [Sample.dev "A" true; Sample.dev "B" true]));
    reflexivity.
Defined.

(** C2 as stated fails: with a "failure" count of zero the entry's
    non-terminal error code "Unavailable" raises nothing. *)
Lemma handle_response_verdict_counterexample :
  (exists r e,
     In r [Sample.entry_error "Unavailable"] /\ res_error r = Some e /\
     e <> EmptyString /\ is_terminal e = false) /\
  length [Sample.entry_error "Unavailable"] = length ["A"%string] /\
  _cm_handle_response ["A"%string]
    (Sample.response_of 0 0 [Sample.entry_error "Unavailable"])
    (Sample.world_of [Sample.dev "A" true]) =
  (Sample.world_of [Sample.dev "A" true],
   Return (Sample.response_of 0 0 [Sample.entry_error "Unavailable"])).
Proof.
  split; [|split; reflexivity].
  exists (Sample.entry_error "Unavailable"), "Unavailable"%string.
  repeat split; [left; reflexivity | discriminate].
Qed.

(** *** The canonical-id rule *)

Lemma Forall2_map_self {A : Type} (P : A -> A -> Prop) (f : A -> A) (l : list A) :
  (forall a, P a (f a)) -> Forall2 P l (map f l).
Proof. intros H. induction l; simpl; constructor; auto. Qed.

Lemma has_active_iff (token : string) (t : table) :
  has_active token t = true <->
  exists d, In d t /\ registration_id d = token /\ active d = true.
Proof.
  unfold has_active, QuerySet.exists_. rewrite existsb_exists.
  split; intros [d [Hin Hd]]; exists d; split; try assumption.
  - apply andb_true_iff in Hd. destruct Hd as [H1 H2].
    apply String.eqb_eq in H1. split; assumption.
  - destruct Hd as [H1 H2]. apply andb_true_iff. split; [|exact H2].
    now apply String.eqb_eq.
Qed.

Lemma fold_left_agree {A B : Type} (f g : A -> B -> A) (l : list B) (a : A) :
  (forall x y, f x y = g x y) -> fold_left f l a = fold_left g l a.
Proof.
  intros H. revert a. induction l as [|b l IH]; intros a; simpl; [reflexivity|].
  rewrite H. apply IH.
Qed.

(** The rule of [resolve], row by row. *)
Lemma resolve_rows (t : table) (old new : string) :
  Forall2
    (fun d d' =>
       application_id d' = application_id d /\
       (registration_id d <> old -> d' = d) /\
       (registration_id d = old ->
        ((exists d0, In d0 t /\ registration_id d0 = new /\ active d0 = true) ->
         registration_id d' = registration_id d /\ active d' = false) /\
        (~ (exists d0, In d0 t /\ registration_id d0 = new /\ active d0 = true) ->
         registration_id d' = new /\ active d' = active d)))
    t (resolve t (old, new)).
Proof.
  unfold resolve. destruct (has_active new t) eqn:Ha.
  - apply has_active_iff in Ha.
    apply Forall2_map_self. intros d. unfold QuerySet.registration_id_is.
    destruct (String.eqb_spec (registration_id d) old) as [He|Hne]; simpl.
    + repeat split; try reflexivity; try contradiction.
    + repeat split; try reflexivity; contradiction.
  - assert (Hno : ~ (exists d0, In d0 t /\ registration_id d0 = new /\ active d0 = true)).
    { intros H. apply has_active_iff in H. congruence. }
    apply Forall2_map_self. intros d. unfold QuerySet.registration_id_is.
    destruct (String.eqb_spec (registration_id d) old) as [He|Hne]; simpl.
    + repeat split; try reflexivity; try contradiction.
    + repeat split; try reflexivity; contradiction.
Qed.

Lemma Forall2_map_in {A : Type} (P : A -> A -> Prop) (f : A -> A) (l : list A) :
  (forall a, In a l -> P a (f a)) -> Forall2 P l (map f l).
Proof.
  intros H. induction l as [|a l IH]; simpl; constructor.
  - apply H. now left.
  - apply IH. intros b Hb. apply H. now right.
Qed.

Lemma Forall2_both {A : Type} (P Q : A -> A -> Prop) (l l' : list A) :
  Forall2 P l l' -> Forall2 Q l l' -> Forall2 (fun a b => P a b /\ Q a b) l l'.
Proof.
  intros HP. induction HP; intros HQ; inversion HQ; subst; constructor; auto.
Qed.

(** The rule seen from the canonical id: a row that carries it is
    untouched when it differs from the old token, and ends inactive when
    it is the old token. *)
Lemma resolve_rows_canonical (t : table) (old new : string) :
  Forall2
    (fun d d' =>
       (new <> old -> registration_id d = new -> d' = d) /\
       (new = old -> registration_id d = old ->
        registration_id d' = registration_id d /\ active d' = false))
    t (resolve t (old, new)).
Proof.
  unfold resolve. destruct (has_active new t) eqn:Ha;
    apply Forall2_map_in; intros d Hd; unfold QuerySet.registration_id_is;
    destruct (String.eqb_spec (registration_id d) old) as [He|Hne]; simpl; split;
    try (intros H1 H2; congruence); try (intros H1 H2; split; reflexivity);
    try reflexivity.
  intros -> _. split; [now symmetry|].
  destruct (active d) eqn:Hact; [|reflexivity].
  assert (Habs : has_active old t = true).
  { apply has_active_iff. exists d. repeat split; assumption. }
  congruence.
Qed.

(** C3, amended (renames in order, by the canonical-id rule).  For a
    response that passes the top-level test and whose results fit the
    token list, the device table after [_cm_handle_response] is the table
    obtained by first deactivating the marked tokens in one batch and then
    running [_cm_handle_canonical_id] on each rename pair, in index order,
    each on the table its predecessors left.  One run of
    [_cm_handle_canonical_id] returns normally, leaves the network log
    alone and rewrites the table row by row: a row whose token is not the
    old one is untouched; a row with the old token is deactivated, token
    kept, when some active row holds the canonical id, and otherwise gets
    the canonical id as its token with its active flag kept; the owning
    application never changes.  So a row holding the canonical id is
    untouched when the canonical id differs from the old token; when the
    gateway names a token as its own canonical id, every row with that
    token ends inactive, an active one is deactivated. *)
Theorem canonical_ids_in_order (tokens : list string) (response : gcm_response)
  (rs : list gcm_result) (w : world) :
  needs_reconciling response = true ->
  results response = Some rs ->
  (length rs <= length tokens)%nat ->
  devices (fst (_cm_handle_response tokens response w)) =
    fold_left
      (fun t p =>
         devices (fst (_cm_handle_canonical_id (snd p) (fst p) (with_devices w t))))
      (rename_pairs tokens rs)
      (deactivate_all (terminal_tokens tokens rs) (devices w)) /\
  forall (canonical_id current_id : string) (w0 : world),
    exists t' : table,
      _cm_handle_canonical_id canonical_id current_id w0 =
        (with_devices w0 t', Return tt) /\
      Forall2
        (fun d d' =>
           application_id d' = application_id d /\
           (registration_id d <> current_id -> d' = d) /\
           (registration_id d = current_id ->
            ((exists d0, In d0 (devices w0) /\ registration_id d0 = canonical_id /\
                         active d0 = true) ->
             registration_id d' = registration_id d /\ active d' = false) /\
            (~ (exists d0, In d0 (devices w0) /\ registration_id d0 = canonical_id /\
                           active d0 = true) ->
             registration_id d' = canonical_id /\ active d' = active d)) /\
           (canonical_id <> current_id -> registration_id d = canonical_id ->
            d' = d) /\
           (canonical_id = current_id -> registration_id d = current_id ->
            registration_id d' = registration_id d /\ active d' = false))
        (devices w0) t'.
Proof.
  intros Hgate Hrs Hlen. split.
  - rewrite (handle_response_run tokens response rs w Hgate Hrs Hlen).
    simpl. unfold reconcile. apply fold_left_agree.
    intros t [old new]. rewrite handle_canonical_id_run. reflexivity.
  - intros canonical_id current_id w0.
    exists (resolve (devices w0) (current_id, canonical_id)).
    split; [apply handle_canonical_id_run|].
    eapply Forall2_impl;
      [|apply Forall2_both; [apply resolve_rows|apply resolve_rows_canonical]].
    cbv beta. intros d d' [[H1 [H2 H3]] [H4 H5]].
    split; [exact H1|]. split; [exact H2|]. split; [exact H3|].
    split; [exact H4|exact H5].
Qed.

Lemma canonical_ids_in_order_witness :
  devices (fst (_cm_handle_response Sample.tokens_abc Sample.response_abc
                  Sample.world_abc)) =
    fold_left
      (fun t p =>
         devices (fst (_cm_handle_canonical_id (snd p) (fst p)
                         (with_devices Sample.world_abc t))))
      (rename_pairs Sample.tokens_abc Sample.results_abc)
      (deactivate_all (terminal_tokens Sample.tokens_abc Sample.results_abc)
         (devices Sample.world_abc)) /\
  forall (canonical_id current_id : string) (w0 : world),
    exists t' : table,
      _cm_handle_canonical_id canonical_id current_id w0 =
        (with_devices w0 t', Return tt) /\
      Forall2
        (fun d d' =>
           application_id d' = application_id d /\
           (registration_id d <> current_id -> d' = d) /\
           (registration_id d = current_id ->
            ((exists d0, In d0 (devices w0) /\ registration_id d0 = canonical_id /\
                         active d0 = true) ->
             registration_id d' = registration_id d /\ active d' = false) /\
            (~ (exists d0, In d0 (devices w0) /\ registration_id d0 = canonical_id /\
                           active d0 = true) ->
             registration_id d' = canonical_id /\ active d' = active d)) /\
           (canonical_id <> current_id -> registration_id d = canonical_id ->
            d' = d) /\
           (canonical_id = current_id -> registration_id d = current_id ->
            registration_id d' = registration_id d /\ active d' = false))
        (devices w0) t'.
Proof.
  apply (canonical_ids_in_order Sample.tokens_abc Sample.response_abc
           Sample.results_abc Sample.world_abc).
  - reflexivity.
  - reflexivity.
  - simpl. lia.
Defined.

(** C3 as stated fails: the gateway names A as the canonical id of A.  An
    active row holds the canonical id, and that row is not left untouched:
    it is the row with the old token, and it is deactivated. *)
Lemma canonical_ids_in_order_counterexample :
  has_active "A" (devices (Sample.world_of [Sample.dev "A" true])) = true /\
  _cm_handle_canonical_id "A" "A" (Sample.world_of [Sample.dev "A" true]) =
    (Sample.world_of [Sample.dev "A" false], Return tt) /\
  _cm_handle_response ["A"%string]
    (Sample.response_of 0 1 [Sample.entry_renamed "A"])
    (Sample.world_of [Sample.dev "A" true]) =
    (Sample.world_of [Sample.dev "A" false],
     Return (Sample.response_of 0 1 [Sample.entry_renamed "A"])).
Proof. repeat split. Qed.

(** The specification's reconciliation example: A is deactivated, B is
    untouched, C becomes NEW, and the response is returned. *)
Example reconcile_abc :
  _cm_handle_response Sample.tokens_abc Sample.response_abc Sample.world_abc =
  (Sample.world_of [Sample.dev "A" false; Sample.dev "B" true; Sample.dev "NEW" true],
   Return Sample.response_abc).
Proof. reflexivity. Qed.

(** The same with an active NEW already registered: C is deactivated
    instead and the NEW row is left alone. *)
Example reconcile_abc_duplicate :
  _cm_handle_response Sample.tokens_abc Sample.response_abc
    (Sample.world_of (devices Sample.world_abc ++ [Sample.dev "NEW" true])) =
  (Sample.world_of [Sample.dev "A" false; Sample.dev "B" true; Sample.dev "C" false;
                    Sample.dev "NEW" true],
   Return Sample.response_abc).
Proof. reflexivity. Qed.

(** A lone "InternalServerError": the call is rejected and A is neither
    deactivated nor renamed. *)
Example reconcile_internal_error :
  _cm_handle_response ["A"%string]
    (Sample.response_of 1 0 [Sample.entry_error "InternalServerError"])
    (Sample.world_of [Sample.dev "A" true]) =
  (Sample.world_of [Sample.dev "A" true],
   Raise (GCMError (Sample.response_of 1 0 [Sample.entry_error "InternalServerError"]))).
Proof. reflexivity. Qed.

(** *** Results arrays that do not fit the token list *)

Lemma scan_step_out_of_range (tokens : list string) (index : nat)
  (r : gcm_result) (st : scan_state) :
  nth_error tokens index = None ->
  scan_step tokens index r st =
  if needs_token r then Raise IndexError
  else Return {| ids_to_remove := ids_to_remove st;
                 old_new_ids := old_new_ids st;
                 throw_error := throw_error st || entry_rejected r |}.
Proof.
  intros Ht. unfold scan_step, index_token, needs_token, entry_terminal,
    entry_rejected, entry_new_id.
  rewrite Ht. destruct st as [ids pairs thr]. destruct r as [err new]. simpl.
  destruct err as [e|]; simpl.
  - destruct (is_terminal e) eqn:Et; simpl.
    + rewrite (is_terminal_truthy e Et). reflexivity.
    + destruct (Py.str_truthy e); simpl;
        (destruct new as [n|]; simpl; [destruct (Py.str_truthy n); simpl|]);
        rewrite ?orb_false_r, ?orb_true_r; reflexivity.
  - destruct new as [n|]; simpl; [destruct (Py.str_truthy n); simpl|];
      rewrite ?orb_false_r; reflexivity.
Qed.

Lemma scan_beyond (tokens : list string) (rs : list gcm_result) :
  forall (index : nat) (st : scan_state),
    (length tokens <= index)%nat ->
    scan tokens index rs st =
    if existsb needs_token rs then Raise IndexError
    else Return {| ids_to_remove := ids_to_remove st;
                   old_new_ids := old_new_ids st;
                   throw_error := throw_error st || rejected rs |}.
Proof.
  induction rs as [|r rs IH]; intros index st Hlen.
  - simpl. rewrite orb_false_r. destruct st; reflexivity.
  - simpl. rewrite scan_step_out_of_range by (apply nth_error_None; exact Hlen).
    destruct (needs_token r); simpl; [reflexivity|].
    rewrite IH by lia. simpl.
    destruct (existsb needs_token rs); [reflexivity|].
    unfold rejected. simpl. now rewrite orb_assoc.
Qed.

Lemma scan_app (tokens : list string) (rs1 rs2 : list gcm_result) :
  forall (index : nat) (st : scan_state),
    scan tokens index (rs1 ++ rs2) st =
    match scan tokens index rs1 st with
    | Return st' => scan tokens (index + length rs1) rs2 st'
    | Raise e => Raise e
    end.
Proof.
  induction rs1 as [|r rs1 IH]; intros index st.
  - simpl. now rewrite Nat.add_0_r.
  - simpl. destruct (scan_step tokens index r st) as [st'|e]; [|reflexivity].
    rewrite IH. now rewrite Nat.add_succ_r.
Qed.

Lemma combine_firstn_fit {A B : Type} (l : list A) (l' : list B) :
  combine l (firstn (length l) l') = combine l l'.
Proof.
  revert l'. induction l as [|a l IH]; intros [|b l']; simpl; try reflexivity.
  now rewrite IH.
Qed.

(** The loop on any results array: it raises [IndexError] exactly when an
    entry past the end of the token list needs its token. *)
Lemma scan_any_length (tokens : list string) (rs : list gcm_result) :
  scan tokens 0 rs scan_init =
  if existsb needs_token (skipn (length tokens) rs) then Raise IndexError
  else Return (scan_result tokens rs scan_init).
Proof.
  destruct (Nat.le_gt_cases (length rs) (length tokens)) as [Hle|Hgt].
  { rewrite skipn_all2 by exact Hle. simpl.
    apply (scan_run tokens rs 0 scan_init). simpl. exact Hle. }
  rewrite <- (firstn_skipn (length tokens) rs) at 1.
  rewrite scan_app.
  rewrite (scan_run tokens (firstn (length tokens) rs) 0 scan_init)
    by (simpl; rewrite length_firstn; lia).
  rewrite scan_beyond by (simpl; rewrite length_firstn; lia).
  destruct (existsb needs_token (skipn (length tokens) rs)); [reflexivity|].
  f_equal. simpl. unfold scan_result, terminal_tokens, rename_pairs. simpl.
  rewrite combine_firstn_fit. f_equal.
  unfold rejected. rewrite <- existsb_app. now rewrite firstn_skipn.
Qed.

(** C5, amended (results that do not fit the token list).  No check of the
    results array against the token list exists.  For a response that
    passes the top-level test: a missing array raises [KeyError] with the
    world unchanged; an array with an entry past the end of the token list
    that carries a terminal code or a replacement token raises [IndexError]
    with the world unchanged; in every other case, whatever the two
    lengths, the entries are reconciled against the tokens at the same
    indices and the call ends as it does for a well-formed response. *)
Theorem results_length_unchecked (tokens : list string)
  (response : gcm_response) (w : world) :
  needs_reconciling response = true ->
  match results response with
  | None => _cm_handle_response tokens response w = (w, Raise (KeyError "results"))
  | Some rs =>
      if existsb needs_token (skipn (length tokens) rs)
      then _cm_handle_response tokens response w = (w, Raise IndexError)
      else _cm_handle_response tokens response w =
           (with_devices w
              (reconcile (terminal_tokens tokens rs) (rename_pairs tokens rs)
                 (devices w)),
            if rejected rs then Raise (GCMError response) else Return response)
  end.
Proof.
  intros Hgate. destruct (results response) as [rs|] eqn:Hrs.
  - pose proof (scan_any_length tokens rs) as Hscan.
    destruct (existsb needs_token (skipn (length tokens) rs)).
    + apply (handle_response_scan_raises tokens response rs _ w Hgate Hrs Hscan).
    + apply (handle_response_after_scan tokens response rs _ w Hgate Hrs Hscan).
  - unfold _cm_handle_response. unfold needs_reconciling in Hgate.
    rewrite Hgate, Hrs. reflexivity.
Qed.

Lemma results_length_unchecked_witness :
  _cm_handle_response ["A"; "B"]%string
    (Sample.response_of 1 0 [Sample.entry_error "NotRegistered"])
    (Sample.world_of [Sample.dev "A" true; Sample.dev "B" true]) =
  (with_devices (Sample.world_of [Sample.dev "A" true; Sample.dev "B" true])
     (reconcile
        (terminal_tokens ["A"; "B"]%string [Sample.entry_error "NotRegistered"])
        (rename_pairs ["A"; "B"]%string [Sample.entry_error "NotRegistered"])
        [Sample.dev "A" true; Sample.dev "B" true]),
   Return (Sample.response_of 1 0 [Sample.entry_error "NotRegistered"])).
Proof.
  apply (results_length_unchecked ["A"; "B"]%string
           (Sample.response_of 1 0 [Sample.entry_error "NotRegistered"])
           (Sample.world_of [Sample.dev "A" true; Sample.dev "B" true])).
  reflexivity.
Defined.

(** C5 as stated fails: a results array shorter than the token list is
    reconciled and the response returned. *)
Lemma results_length_unchecked_counterexample :
  length [Sample.entry_error "NotRegistered"] = 1%nat /\
  length ["A"; "B"]%string = 2%nat /\
  _cm_handle_response ["A"; "B"]%string
    (Sample.response_of 1 0 [Sample.entry_error "NotRegistered"])
    (Sample.world_of [Sample.dev "A" true; Sample.dev "B" true]) =
  (Sample.world_of [Sample.dev "A" false; Sample.dev "B" true],
   Return (Sample.response_of 1 0 [Sample.entry_error "NotRegistered"])).
Proof. repeat split. Qed.

(** *** Reconciling twice *)

Lemma handle_response_world (tokens : list string) (response : gcm_response)
  (w : world) :
  fst (_cm_handle_response tokens response w) =
  with_devices w (reconciled_table tokens response (devices w)).
Proof.
  unfold reconciled_table.
  destruct (needs_reconciling response) eqn:Hgate.
  - destruct (results response) as [rs|] eqn:Hrs.
    + pose proof (scan_any_length tokens rs) as Hscan.
      destruct (existsb needs_token (skipn (length tokens) rs)).
      * rewrite (handle_response_scan_raises tokens response rs _ w Hgate Hrs Hscan).
        simpl. now rewrite with_devices_same.
      * rewrite (handle_response_after_scan tokens response rs _ w Hgate Hrs Hscan).
        reflexivity.
    + unfold _cm_handle_response. unfold needs_reconciling in Hgate.
      rewrite Hgate, Hrs. simpl. now rewrite with_devices_same.
  - unfold _cm_handle_response. unfold needs_reconciling in Hgate.
    rewrite Hgate. simpl. now rewrite with_devices_same.
Qed.

Lemma update_fixed (p : GCMDevice -> bool) (f : GCMDevice -> GCMDevice) (t : table) :
  (forall d, In d t -> p d = true -> f d = d) -> QuerySet.update p f t = t.
Proof.
  intros H. unfold QuerySet.update. rewrite <- (map_id t) at 2.
  apply map_ext_in. intros d Hd. destruct (p d) eqn:E; auto.
Qed.

Lemma update_in (p : GCMDevice -> bool) (f : GCMDevice -> GCMDevice) (t : table)
  (d' : GCMDevice) :
  In d' (QuerySet.update p f t) <->
  exists d, In d t /\ d' = if p d then f d else d.
Proof.
  unfold QuerySet.update. rewrite in_map_iff.
  split; intros [d [H1 H2]]; exists d; split; auto.
Qed.

Lemma set_active_false_fixed (d : GCMDevice) :
  active d = false -> QuerySet.set_active false d = d.
Proof. destruct d; simpl; intros ->; reflexivity. Qed.

Lemma set_registration_id_fixed (d : GCMDevice) (token : string) :
  registration_id d = token -> QuerySet.set_registration_id token d = d.
Proof. destruct d; simpl; intros ->; reflexivity. Qed.

Lemma registration_id_is_true (token : string) (d : GCMDevice) :
  QuerySet.registration_id_is token d = true <-> registration_id d = token.
Proof. unfold QuerySet.registration_id_is. apply String.eqb_eq. Qed.

Lemma registration_id_in_true (tokens : list string) (d : GCMDevice) :
  QuerySet.registration_id_in tokens d = true <-> In (registration_id d) tokens.
Proof.
  unfold QuerySet.registration_id_in. rewrite existsb_exists. split.
  - intros [x [Hin He]]. apply String.eqb_eq in He. now rewrite He.
  - intros Hin. exists (registration_id d). split; [exact Hin|apply String.eqb_refl].
Qed.

(** The batch deactivation is idempotent. *)
Lemma deactivate_all_inactive (tokens : list string) (t : table) :
  all_inactive tokens (deactivate_all tokens t).
Proof.
  intros d' Hin Htok. unfold deactivate_all in Hin.
  apply update_in in Hin. destruct Hin as [d [Hd ->]].
  destruct (QuerySet.registration_id_in tokens d) eqn:E; [reflexivity|].
  apply registration_id_in_true in Htok. congruence.
Qed.

Lemma deactivate_all_fixed (tokens : list string) (t : table) :
  all_inactive tokens t -> deactivate_all tokens t = t.
Proof.
  intros H. unfold deactivate_all. apply update_fixed.
  intros d Hd Hp. apply set_active_false_fixed. apply (H d Hd).
  now apply registration_id_in_true.
Qed.

Lemma deactivate_all_idempotent (tokens : list string) (t : table) :
  deactivate_all tokens (deactivate_all tokens t) = deactivate_all tokens t.
Proof. apply deactivate_all_fixed, deactivate_all_inactive. Qed.

(** A settled pair changes nothing. *)
Lemma settled_fixed (p : string * string) (t : table) :
  settled p t -> resolve t p = t.
Proof.
  destruct p as [old new]. unfold settled, resolve. simpl.
  intros [Hnone | [Hact Hin]].
  - destruct (has_active new t); apply update_fixed; intros d Hd Hp;
      apply registration_id_is_true in Hp; elim (Hnone d Hd Hp).
  - rewrite Hact. apply update_fixed. intros d Hd Hp.
    apply registration_id_is_true in Hp.
    apply set_active_false_fixed. apply (Hin d Hd Hp).
Qed.

(** One step of the rule settles its own pair. *)
Lemma resolve_settles (old new : string) (t : table) :
  old <> new -> settled (old, new) (resolve t (old, new)).
Proof.
  intros Hne. unfold settled, resolve. simpl.
  destruct (has_active new t) eqn:Ha.
  - right. split.
    + apply has_active_iff in Ha. destruct Ha as [d0 [Hin0 [Hr0 Ha0]]].
      apply has_active_iff. exists d0. repeat split; try assumption.
      apply update_in. exists d0. split; [exact Hin0|].
      destruct (QuerySet.registration_id_is old d0) eqn:E; [|reflexivity].
      apply registration_id_is_true in E. congruence.
    + intros d' Hin' Hr'. apply update_in in Hin'.
      destruct Hin' as [d [Hd ->]].
      destruct (QuerySet.registration_id_is old d) eqn:E; [reflexivity|].
      apply registration_id_is_true in Hr'. congruence.
  - left. intros d' Hin' Hr'. apply update_in in Hin'.
    destruct Hin' as [d [Hd ->]].
    destruct (QuerySet.registration_id_is old d) eqn:E.
    + simpl in Hr'. congruence.
    + apply registration_id_is_true in Hr'. congruence.
Qed.

(** A settled pair stays settled under a step for another pair, as long as
    neither canonical id is the other pair's old token. *)
Lemma settled_preserved (p q : string * string) (t : table) :
  settled p t -> snd q <> fst p -> snd p <> fst q -> settled p (resolve t q).
Proof.
  destruct p as [old new], q as [old' new']. unfold settled. simpl.
  intros Hs Hn1 Hn2.
  assert (Hrow : forall d', In d' (resolve t (old', new')) ->
            exists d, In d t /\
              (d' = d \/
               (registration_id d = old' /\
                (d' = QuerySet.set_active false d \/
                 d' = QuerySet.set_registration_id new' d)))).
  { intros d' Hin'. unfold resolve in Hin'.
    destruct (has_active new' t); apply update_in in Hin';
      destruct Hin' as [d [Hd ->]]; exists d; split; try exact Hd;
      destruct (QuerySet.registration_id_is old' d) eqn:E; auto;
      apply registration_id_is_true in E; right; split; auto. }
  destruct Hs as [Hnone | [Hact Hin]].
  - left. intros d' Hin' Hr'. destruct (Hrow d' Hin') as [d [Hd Hcase]].
    destruct Hcase as [-> | [Ho [-> | ->]]].
    + exact (Hnone d Hd Hr').
    + simpl in Hr'. exact (Hnone d Hd Hr').
    + simpl in Hr'. congruence.
  - right. split.
    + apply has_active_iff in Hact. destruct Hact as [d0 [Hin0 [Hr0 Ha0]]].
      apply has_active_iff. exists d0. repeat split; try assumption.
      unfold resolve.
      destruct (has_active new' t); apply update_in; exists d0;
        (split; [exact Hin0|]);
        destruct (QuerySet.registration_id_is old' d0) eqn:E; try reflexivity;
        apply registration_id_is_true in E; congruence.
    + intros d' Hin' Hr'. destruct (Hrow d' Hin') as [d [Hd Hcase]].
      destruct Hcase as [-> | [Ho [-> | ->]]].
      * exact (Hin d Hd Hr').
      * reflexivity.
      * simpl in Hr'. congruence.
Qed.

Lemma all_inactive_preserved (tokens : list string) (p : string * string) (t : table) :
  all_inactive tokens t -> ~ In (snd p) tokens -> all_inactive tokens (resolve t p).
Proof.
  destruct p as [old new]. simpl. intros Hall Hfresh d' Hin' Htok.
  unfold resolve in Hin'.
  destruct (has_active new t); apply update_in in Hin';
    destruct Hin' as [d [Hd ->]];
    destruct (QuerySet.registration_id_is old d) eqn:E;
    try reflexivity; try (apply (Hall d Hd Htok)).
  simpl in Htok. contradiction.
Qed.

Lemma fold_all_inactive (tokens : list string) (pairs : list (string * string)) :
  forall t : table,
    all_inactive tokens t ->
    (forall p, In p pairs -> ~ In (snd p) tokens) ->
    all_inactive tokens (fold_left resolve pairs t).
Proof.
  induction pairs as [|p pairs IH]; intros t Hall Hfresh; simpl; [exact Hall|].
  apply IH.
  - apply all_inactive_preserved; [exact Hall|]. apply Hfresh. now left.
  - intros q Hq. apply Hfresh. now right.
Qed.

Lemma fold_settles (pairs : list (string * string)) :
  forall (done : list (string * string)) (t : table),
    (forall q, In q done -> settled q t) ->
    (forall p q, In p (done ++ pairs) -> In q (done ++ pairs) -> snd p <> fst q) ->
    forall q, In q (done ++ pairs) -> settled q (fold_left resolve pairs t).
Proof.
  induction pairs as [|p pairs IH]; intros done t Hdone Hfresh q Hq.
  - simpl. rewrite app_nil_r in Hq. exact (Hdone q Hq).
  - simpl. apply (IH (done ++ [p])).
    + intros q' Hq'. apply in_app_iff in Hq'. destruct Hq' as [Hq' | [<- | []]].
      * apply settled_preserved; [exact (Hdone q' Hq')| |];
          apply Hfresh; rewrite in_app_iff; simpl; auto.
      * destruct p as [old new]. apply resolve_settles.
        intros Heq. apply (Hfresh (old, new) (old, new));
          try (rewrite in_app_iff; simpl; auto). simpl. congruence.
    + rewrite <- app_assoc. exact Hfresh.
    + rewrite <- app_assoc. exact Hq.
Qed.

Lemma fold_fixed (pairs : list (string * string)) (t : table) :
  (forall p, In p pairs -> settled p t) -> fold_left resolve pairs t = t.
Proof.
  induction pairs as [|p pairs IH]; intros H; simpl; [reflexivity|].
  rewrite (settled_fixed p t) by (apply H; now left).
  apply IH. intros q Hq. apply H. now right.
Qed.

(** Reconciling again changes nothing when no canonical id is a marked
    token or the old token of a pair. *)
Lemma reconcile_idempotent (dead : list string) (pairs : list (string * string))
  (t : table) :
  (forall p, In p pairs -> ~ In (snd p) dead) ->
  (forall p q, In p pairs -> In q pairs -> snd p <> fst q) ->
  reconcile dead pairs (reconcile dead pairs t) = reconcile dead pairs t.
Proof.
  intros Hdead Hfresh. unfold reconcile at 1.
  rewrite deactivate_all_fixed.
  - apply fold_fixed. intros p Hp. unfold reconcile.
    apply (fold_settles pairs [] (deactivate_all dead t)); simpl; try assumption.
    intros q [].
  - unfold reconcile. apply fold_all_inactive; [apply deactivate_all_inactive|exact Hdead].
Qed.

(** One step of the rule is idempotent, also when the canonical id is the
    old token. *)
Lemma resolve_idempotent (p : string * string) (t : table) :
  resolve (resolve t p) p = resolve t p.
Proof.
  destruct p as [old new]. destruct (string_dec old new) as [<- | Hne].
  - assert (Hid : forall t0 : table,
               QuerySet.update (QuerySet.registration_id_is old)
                 (QuerySet.set_registration_id old) t0 = t0).
    { intros t0. apply update_fixed. intros d Hd Hp.
      apply set_registration_id_fixed. now apply registration_id_is_true. }
    destruct (has_active old t) eqn:Ha.
    + assert (Hstep : resolve t (old, old) =
                      QuerySet.update (QuerySet.registration_id_is old)
                        (QuerySet.set_active false) t).
      { unfold resolve. now rewrite Ha. }
      rewrite Hstep.
      set (t1 := QuerySet.update _ _ t).
      assert (Hno : has_active old t1 = false).
      { destruct (has_active old t1) eqn:E; [|reflexivity].
        apply has_active_iff in E. destruct E as [d' [Hin' [Hr' Ha']]].
        apply update_in in Hin'. destruct Hin' as [d [Hd ->]].
        destruct (QuerySet.registration_id_is old d) eqn:E.
        - simpl in Ha'. discriminate.
        - apply registration_id_is_true in Hr'. congruence. }
      unfold resolve. rewrite Hno. apply Hid.
    + assert (Hstep : resolve t (old, old) = t).
      { unfold resolve. rewrite Ha. apply Hid. }
      rewrite Hstep. exact Hstep.
  - apply settled_fixed, resolve_settles. exact Hne.
Qed.

Lemma reconciled_table_idempotent (tokens : list string) (response : gcm_response)
  (t : table) :
  (forall rs, results response = Some rs ->
     forall r n, In r rs -> res_registration_id r = Some n -> ~ In n tokens) ->
  reconciled_table tokens response (reconciled_table tokens response t) =
  reconciled_table tokens response t.
Proof.
  intros Hfresh. unfold reconciled_table.
  destruct (needs_reconciling response); [|reflexivity].
  destruct (results response) as [rs|] eqn:Hrs; [|reflexivity].
  destruct (existsb needs_token (skipn (length tokens) rs)); [reflexivity|].
  assert (Hnew : forall p, In p (rename_pairs tokens rs) -> ~ In (snd p) tokens).
  { intros [old new] Hp. apply rename_pairs_in in Hp.
    destruct Hp as [i [r [_ [Hr [Hn _]]]]]. simpl.
    apply (Hfresh rs eq_refl r new); [|exact Hn].
    apply (nth_error_In _ _ Hr). }
  apply reconcile_idempotent.
  - intros p Hp Hin. apply terminal_tokens_in in Hin.
    destruct Hin as [i [r [e [Ht _]]]].
    apply (Hnew p Hp). apply (nth_error_In _ _ Ht).
  - intros p [old' new'] Hp Hq Heq. simpl in Heq.
    apply rename_pairs_in in Hq. destruct Hq as [i [r [Ht _]]].
    apply (Hnew p Hp). rewrite Heq. apply (nth_error_In _ _ Ht).
Qed.

(** *** Reconciling again, with tokens reported as their own canonical id *)

Lemma at_rest_fixed (p : string * string) (t : table) :
  at_rest p t -> resolve t p = t.
Proof.
  intros [Hs | [Heq Hin]]; [now apply settled_fixed|].
  destruct p as [old new]. simpl in Heq, Hin. subst new. unfold resolve.
  destruct (has_active old t) eqn:Ha.
  - apply has_active_iff in Ha. destruct Ha as [d [Hd [Hr Hact]]].
    rewrite (Hin d Hd Hr) in Hact. discriminate.
  - apply update_fixed. intros d Hd Hp.
    apply set_registration_id_fixed. now apply registration_id_is_true.
Qed.

Lemma resolve_at_rest (p : string * string) (t : table) :
  at_rest p (resolve t p).
Proof.
  destruct p as [old new]. destruct (string_dec old new) as [<- | Hne].
  - right. split; [reflexivity|]. simpl. intros d' Hin' Hreg.
    unfold resolve in Hin'.
    destruct (has_active old t) eqn:Ha;
      apply update_in in Hin'; destruct Hin' as [d [Hd ->]];
      destruct (QuerySet.registration_id_is old d) eqn:E.
    + reflexivity.
    + apply registration_id_is_true in Hreg. congruence.
    + simpl. destruct (active d) eqn:Hact; [|reflexivity].
      assert (Habs : has_active old t = true).
      { apply has_active_iff. exists d. repeat split; try assumption.
        now apply registration_id_is_true. }
      congruence.
    + apply registration_id_is_true in Hreg. congruence.
  - left. now apply resolve_settles.
Qed.

Lemma all_inactive_kept (tokens : list string) (p : string * string) (t : table) :
  all_inactive tokens t ->
  (In (snd p) tokens -> fst p = snd p) ->
  all_inactive tokens (resolve t p).
Proof.
  destruct p as [old new]. simpl. intros Hall Hfresh d' Hin' Htok.
  unfold resolve in Hin'.
  destruct (has_active new t); apply update_in in Hin';
    destruct Hin' as [d [Hd ->]];
    destruct (QuerySet.registration_id_is old d) eqn:E;
    try reflexivity; try (apply (Hall d Hd Htok)).
  simpl in Htok. apply registration_id_is_true in E.
  simpl. apply (Hall d Hd). rewrite E, (Hfresh Htok). exact Htok.
Qed.

Lemma at_rest_preserved (p q : string * string) (t : table) :
  at_rest p t ->
  q = p \/ (snd q <> fst p /\ snd p <> fst q) ->
  at_rest p (resolve t q).
Proof.
  intros Hp [-> | [Hn1 Hn2]].
  - now rewrite (at_rest_fixed p t Hp).
  - destruct Hp as [Hs | [Heq Hin]].
    + left. now apply settled_preserved.
    + right. split; [exact Heq|].
      intros d' Hd' Hreg.
      apply (all_inactive_kept [fst p] q t) with (d := d').
      * intros d Hd [Hd1 | []]. apply (Hin d Hd). now symmetry.
      * intros [Hc | []]. congruence.
      * exact Hd'.
      * left. now symmetry.
Qed.

Lemma pair_eq_dec (p q : string * string) : {p = q} + {p <> q}.
Proof. decide equality; apply string_dec. Qed.

Lemma fold_at_rest (pairs : list (string * string)) :
  forall (done : list (string * string)) (t : table),
    (forall q, In q done -> at_rest q t) ->
    (forall p q, In p (done ++ pairs) -> In q (done ++ pairs) ->
                 snd p = fst q -> p = q) ->
    forall q, In q (done ++ pairs) -> at_rest q (fold_left resolve pairs t).
Proof.
  induction pairs as [|p pairs IH]; intros done t Hdone Hfresh q Hq.
  - simpl. rewrite app_nil_r in Hq. exact (Hdone q Hq).
  - simpl. apply (IH (done ++ [p])).
    + intros q' Hq'. apply in_app_iff in Hq'. destruct Hq' as [Hq' | [<- | []]].
      * apply at_rest_preserved; [exact (Hdone q' Hq')|].
        destruct (pair_eq_dec p q') as [Heq | Hne]; [now left|right].
        assert (Hp : In p (done ++ p :: pairs))
          by (rewrite in_app_iff; simpl; auto).
        assert (Hq'' : In q' (done ++ p :: pairs))
          by (rewrite in_app_iff; auto).
        split; intros Heq.
        -- apply Hne. exact (Hfresh p q' Hp Hq'' Heq).
        -- apply Hne. symmetry. exact (Hfresh q' p Hq'' Hp Heq).
      * apply resolve_at_rest.
    + rewrite <- app_assoc. exact Hfresh.
    + rewrite <- app_assoc. exact Hq.
Qed.

Lemma fold_kept (pairs : list (string * string)) (t : table) :
  (forall p, In p pairs -> at_rest p t) -> fold_left resolve pairs t = t.
Proof.
  induction pairs as [|p pairs IH]; intros H; simpl; [reflexivity|].
  rewrite (at_rest_fixed p t) by (apply H; now left).
  apply IH. intros q Hq. apply H. now right.
Qed.

Lemma fold_all_inactive_kept (tokens : list string) (pairs : list (string * string)) :
  forall t : table,
    all_inactive tokens t ->
    (forall p, In p pairs -> In (snd p) tokens -> fst p = snd p) ->
    all_inactive tokens (fold_left resolve pairs t).
Proof.
  induction pairs as [|p pairs IH]; intros t Hall Hfresh; simpl; [exact Hall|].
  apply IH.
  - apply all_inactive_kept; [exact Hall|]. apply Hfresh. now left.
  - intros q Hq. apply Hfresh. now right.
Qed.

(** Reconciling again changes nothing when a canonical id that is a marked
    token, or the old token of a pair, is so only as its own canonical
    id. *)
Lemma reconcile_again (dead : list string) (pairs : list (string * string))
  (t : table) :
  (forall p, In p pairs -> In (snd p) dead -> fst p = snd p) ->
  (forall p q, In p pairs -> In q pairs -> snd p = fst q -> p = q) ->
  reconcile dead pairs (reconcile dead pairs t) = reconcile dead pairs t.
Proof.
  intros Hdead Hfresh. unfold reconcile at 1.
  rewrite deactivate_all_fixed.
  - apply fold_kept. intros p Hp. unfold reconcile.
    apply (fold_at_rest pairs [] (deactivate_all dead t)); simpl; try assumption.
    intros q [].
  - unfold reconcile.
    apply fold_all_inactive_kept; [apply deactivate_all_inactive|exact Hdead].
Qed.

Lemma reconciled_table_again (tokens : list string) (response : gcm_response)
  (t : table) :
  (forall rs, results response = Some rs ->
     (forall p, In p (rename_pairs tokens rs) ->
                In (snd p) (terminal_tokens tokens rs) -> fst p = snd p) /\
     (forall p q, In p (rename_pairs tokens rs) -> In q (rename_pairs tokens rs) ->
                  snd p = fst q -> p = q)) ->
  reconciled_table tokens response (reconciled_table tokens response t) =
  reconciled_table tokens response t.
Proof.
  intros Hfresh. unfold reconciled_table.
  destruct (needs_reconciling response); [|reflexivity].
  destruct (results response) as [rs|] eqn:Hrs; [|reflexivity].
  destruct (existsb needs_token (skipn (length tokens) rs)); [reflexivity|].
  destruct (Hfresh rs eq_refl) as [Hdead Hpairs].
  now apply reconcile_again.
Qed.

(** C9, amended (reconciling twice).  Take the rename pairs (token,
    canonical id) and the tokens marked dead that the response gives for
    the chunk.  When every canonical id that is a dead token, or the token
    of a pair, is so only as the canonical id of that very token, applying
    [_cm_handle_response] a second time to the same tokens and response
    leaves the world the first application produced.  This covers a
    canonical id that is another, healthy token of the same chunk, and a
    token reported as its own canonical id.  On their own, one run of
    [_cm_handle_canonical_id] repeated and the batch deactivation repeated
    change nothing either, for every pair and every table. *)
Theorem reconcile_twice (tokens : list string) (response : gcm_response)
  (w : world) :
  (forall rs, results response = Some rs ->
     (forall p, In p (rename_pairs tokens rs) ->
                In (snd p) (terminal_tokens tokens rs) -> fst p = snd p) /\
     (forall p q, In p (rename_pairs tokens rs) -> In q (rename_pairs tokens rs) ->
                  snd p = fst q -> p = q)) ->
  fst (_cm_handle_response tokens response
         (fst (_cm_handle_response tokens response w))) =
  fst (_cm_handle_response tokens response w) /\
  (forall (canonical_id current_id : string) (w0 : world),
     fst (_cm_handle_canonical_id canonical_id current_id
            (fst (_cm_handle_canonical_id canonical_id current_id w0))) =
     fst (_cm_handle_canonical_id canonical_id current_id w0)) /\
  (forall (dead : list string) (t : table),
     deactivate_all dead (deactivate_all dead t) = deactivate_all dead t).
Proof.
  intros Hfresh. split; [|split].
  - rewrite !handle_response_world. unfold with_devices. cbn [devices sent].
    now rewrite (reconciled_table_again tokens response (devices w) Hfresh).
  - intros canonical_id current_id w0. rewrite !handle_canonical_id_run.
    cbn [fst]. unfold with_devices. cbn [devices sent].
    now rewrite resolve_idempotent.
  - apply deactivate_all_idempotent.
Qed.

Lemma reconcile_twice_witness :
  fst (_cm_handle_response Sample.tokens_abc Sample.response_duplicate
         (fst (_cm_handle_response Sample.tokens_abc Sample.response_duplicate
                 Sample.world_abc))) =
  fst (_cm_handle_response Sample.tokens_abc Sample.response_duplicate
         Sample.world_abc) /\
  (forall (canonical_id current_id : string) (w0 : world),
     fst (_cm_handle_canonical_id canonical_id current_id
            (fst (_cm_handle_canonical_id canonical_id current_id w0))) =
     fst (_cm_handle_canonical_id canonical_id current_id w0)) /\
  (forall (dead : list string) (t : table),
     deactivate_all dead (deactivate_all dead t) = deactivate_all dead t).
Proof.
  apply (reconcile_twice Sample.tokens_abc Sample.response_duplicate
           Sample.world_abc).
  intros rs Hrs. injection Hrs as <-. split.
  - intros p _ [].
  - intros p q Hp Hq Heq. simpl in Hp, Hq.
    destruct Hp as [<- | [<- | []]]; destruct Hq as [<- | [<- | []]];
      simpl in Heq; try discriminate; reflexivity.
Defined.

(** C9 as stated fails: A is reported renamed to B and B renamed to C.
    The first reconciliation deactivates A (B is active) and renames B to
    C; the second finds no active B any more and renames A to B. *)
Lemma reconcile_twice_counterexample :
  fst (_cm_handle_response ["A"; "B"]%string
         (Sample.response_of 0 2 [Sample.entry_renamed "B"; Sample.entry_renamed "C"])
         (Sample.world_of [Sample.dev "A" true; Sample.dev "B" true])) =
  Sample.world_of [Sample.dev "A" false; Sample.dev "C" true] /\
  fst (_cm_handle_response ["A"; "B"]%string
         (Sample.response_of 0 2 [Sample.entry_renamed "B"; Sample.entry_renamed "C"])
         (Sample.world_of [Sample.dev "A" false; Sample.dev "C" true])) =
  Sample.world_of [Sample.dev "B" false; Sample.dev "C" true].
Proof. split; reflexivity. Qed.

(** The other way a second reconciliation changes the table: A is reported
    renamed to B, and B is reported "NotRegistered" by the same response.
    The first reconciliation deactivates B and renames A to B, keeping it
    active; the second deactivates that row. *)
Example reconcile_twice_dead_canonical :
  fst (_cm_handle_response ["A"; "B"]%string
         (Sample.response_of 1 1
            [Sample.entry_renamed "B"; Sample.entry_error "NotRegistered"])
         (Sample.world_of [Sample.dev "A" true; Sample.dev "B" true])) =
  Sample.world_of [Sample.dev "B" true; Sample.dev "B" false] /\
  fst (_cm_handle_response ["A"; "B"]%string
         (Sample.response_of 1 1
            [Sample.entry_renamed "B"; Sample.entry_error "NotRegistered"])
         (Sample.world_of [Sample.dev "B" true; Sample.dev "B" false])) =
  Sample.world_of [Sample.dev "B" false; Sample.dev "B" false].
Proof. split; reflexivity. Qed.

(** ** Transport and dispatch *)

Section Dispatch.

Variable SETTINGS : settings.
Variable urlopen : nat -> http_request -> http_reply.
Variables data collapse_key delay_while_idle time_to_live : json.

Let send_json (registration_ids : list string) : M (option gcm_response) :=
  _gcm_send_json SETTINGS urlopen registration_ids data collapse_key
    delay_while_idle time_to_live.

Let request (registration_ids : list string) : http_request :=
  gcm_request SETTINGS registration_ids data collapse_key delay_while_idle
    time_to_live.

Lemma gcm_send_no_key (body content_type : string) (w : world) :
  Py.opt_truthy (GCM_API_KEY SETTINGS) = false ->
  _gcm_send SETTINGS urlopen body content_type w = (w, Raise ImproperlyConfigured).
Proof. intros Hk. unfold _gcm_send. rewrite Hk. reflexivity. Qed.

Lemma handle_response_sent (tokens : list string) (response : gcm_response)
  (w : world) :
  sent (fst (_cm_handle_response tokens response w)) = sent w.
Proof. rewrite handle_response_world. reflexivity. Qed.

(** One send of a non-empty chunk, step by step. *)
Lemma send_json_run (chunk : list string) (w : world) :
  chunk <> [] ->
  send_json chunk w =
  if Py.opt_truthy (GCM_API_KEY SETTINGS) then
    let w1 := {| devices := devices w; sent := sent w ++ [request chunk] |} in
    match urlopen (length (sent w)) (request chunk) with
    | Body parsed =>
        match _cm_handle_response chunk parsed w1 with
        | (w2, Return response) => (w2, Return (Some response))
        | (w2, Raise e) => (w2, Raise e)
        end
    | HTTPFailure status => (w1, Raise (HTTPError status))
    end
  else (w, Raise ImproperlyConfigured).
Proof.
  intros Hne. unfold send_json, _gcm_send_json.
  destruct chunk as [|t chunk]; [congruence|].
  unfold bind at 1. unfold _gcm_send.
  destruct (Py.opt_truthy (GCM_API_KEY SETTINGS)); simpl; [|reflexivity].
  unfold http_open, request, gcm_request. simpl.
  destruct (urlopen _ _) as [parsed|status]; [|reflexivity].
  unfold bind. destruct (_cm_handle_response _ parsed _) as [w2 [response|e]];
    reflexivity.
Qed.

(** A send that returns has put exactly its request on the network. *)
Lemma send_json_returns (chunk : list string) (w w' : world)
  (r : option gcm_response) :
  chunk <> [] ->
  send_json chunk w = (w', Return r) ->
  sent w' = sent w ++ [request chunk].
Proof.
  intros Hne Hrun. rewrite (send_json_run chunk w Hne) in Hrun.
  destruct (Py.opt_truthy (GCM_API_KEY SETTINGS)); [|discriminate].
  simpl in Hrun. destruct (urlopen _ _) as [parsed|status]; [|discriminate].
  pose proof (handle_response_sent chunk parsed
                {| devices := devices w; sent := sent w ++ [request chunk] |}) as Hs.
  destruct (_cm_handle_response chunk parsed _) as [w2 [response|e]];
    [|discriminate].
  injection Hrun as <- _. exact Hs.
Qed.

(** A send that raises has put at most its request on the network. *)
Lemma send_json_raises (chunk : list string) (w w' : world) (e : exn) :
  chunk <> [] ->
  send_json chunk w = (w', Raise e) ->
  sent w' = sent w \/ sent w' = sent w ++ [request chunk].
Proof.
  intros Hne Hrun. rewrite (send_json_run chunk w Hne) in Hrun.
  destruct (Py.opt_truthy (GCM_API_KEY SETTINGS)).
  - simpl in Hrun. right.
    destruct (urlopen _ _) as [parsed|status].
    + pose proof (handle_response_sent chunk parsed
                {| devices := devices w; sent := sent w ++ [request chunk] |}) as Hs.
      destruct (_cm_handle_response chunk parsed _) as [w2 [response|e']];
        [discriminate|].
      injection Hrun as <- _. exact Hs.
    + injection Hrun as <- _. reflexivity.
  - left. injection Hrun as <- _. reflexivity.
Qed.

(** The loop over the chunks: either every send returns, or the first one
    that raises ends the loop. *)
Lemma send_chunks_cases (chunks : list (list string)) :
  forall (acc : list (option gcm_response)) (w : world),
    Forall (fun c => c <> []) chunks ->
    (exists rs w',
        chunks_run SETTINGS urlopen data collapse_key delay_while_idle time_to_live
          chunks w rs w' /\
        sent w' = sent w ++ map request chunks /\
        send_chunks SETTINGS urlopen chunks data collapse_key delay_while_idle
          time_to_live acc w = (w', Return (acc ++ rs))) \/
    (exists pre c post rs w1 w2 e,
        chunks = pre ++ c :: post /\
        chunks_run SETTINGS urlopen data collapse_key delay_while_idle time_to_live
          pre w rs w1 /\
        sent w1 = sent w ++ map request pre /\
        send_json c w1 = (w2, Raise e) /\
        (sent w2 = sent w1 \/ sent w2 = sent w1 ++ [request c]) /\
        send_chunks SETTINGS urlopen chunks data collapse_key delay_while_idle
          time_to_live acc w = (w2, Raise e)).
Proof.
  induction chunks as [|c chunks IH]; intros acc w Hne.
  - left. exists [], w. repeat split.
    + constructor.
    + simpl. now rewrite app_nil_r.
    + simpl. unfold ret. now rewrite app_nil_r.
  - inversion Hne as [|c' chunks' Hc Hrest]; subst.
    assert (Hstep :
              send_chunks SETTINGS urlopen (c :: chunks) data collapse_key
                delay_while_idle time_to_live acc w =
              match send_json c w with
              | (w1, Return r) =>
                  send_chunks SETTINGS urlopen chunks data collapse_key
                    delay_while_idle time_to_live (acc ++ [r]) w1
              | (w1, Raise e) => (w1, Raise e)
              end) by reflexivity.
    rewrite Hstep. clear Hstep.
    destruct (send_json c w) as [w1 [r|e]] eqn:Hrun.
    + pose proof (send_json_returns c w w1 r Hc Hrun) as Hsent.
      destruct (IH (acc ++ [r]) w1 Hrest)
        as [[rs [w' [Hruns [Hs Hsend]]]]
           | [pre [c0 [post [rs [wa [wb [e [Hsplit [Hruns [Hs [Hfail [Hs2 Hsend]]]]]]]]]]]]].
      * left. exists (r :: rs), w'. repeat split.
        -- econstructor; eassumption.
        -- rewrite Hs, Hsent, <- app_assoc. reflexivity.
        -- rewrite Hsend, <- app_assoc. reflexivity.
      * right. exists (c :: pre), c0, post, (r :: rs), wa, wb, e. repeat split.
        -- rewrite Hsplit. reflexivity.
        -- econstructor; eassumption.
        -- rewrite Hs, Hsent, <- app_assoc. reflexivity.
        -- exact Hfail.
        -- exact Hs2.
        -- exact Hsend.
    + right. exists [], c, chunks, [], w, w1, e. repeat split.
      * constructor.
      * simpl. now rewrite app_nil_r.
      * exact Hrun.
      * apply (send_json_raises c w w1 e Hc Hrun).
Qed.

End Dispatch.

Lemma windows_nonempty {A : Type} (l : list A) (n : nat) :
  (0 < n)%nat -> Forall (fun c => c <> []) (windows l n).
Proof.
  intros Hn. apply Forall_forall. intros c Hc. unfold windows in Hc.
  apply in_map_iff in Hc. destruct Hc as [k [<- Hk]].
  apply in_seq in Hk.
  destruct (chunk_count_bounds (length l) n Hn) as [_ Hlt].
  specialize (Hlt k ltac:(lia)).
  intros Hnil. apply (f_equal (@length A)) in Hnil.
  rewrite length_firstn, length_skipn in Hnil. simpl in Hnil. lia.
Qed.

(** The bulk send on a list longer than the limit is the loop over the
    chunks. *)
Lemma bulk_over_limit (SETTINGS : settings)
  (urlopen : nat -> http_request -> http_reply) (registration_ids : list string)
  (data collapse_key delay_while_idle time_to_live : json) (w : world) :
  1 <= GCM_MAX_RECIPIENTS SETTINGS ->
  GCM_MAX_RECIPIENTS SETTINGS < Py.len registration_ids ->
  gcm_send_bulk_message SETTINGS urlopen registration_ids data collapse_key
    delay_while_idle time_to_live w =
  match send_chunks SETTINGS urlopen
          (windows registration_ids (Z.to_nat (GCM_MAX_RECIPIENTS SETTINGS)))
          data collapse_key delay_while_idle time_to_live [] w with
  | (w', Return rs) => (w', Return (PerChunk rs))
  | (w', Raise e) => (w', Raise e)
  end.
Proof.
  intros Hmax Hlen. unfold gcm_send_bulk_message.
  apply Z.ltb_lt in Hlen. rewrite Hlen.
  rewrite (chunks_windows registration_ids _ Hmax).
  unfold bind at 1. unfold lift. unfold bind at 1.
  destruct (send_chunks _ _ _ _ _ _ _ _ w) as [w' [rs|e]]; reflexivity.
Qed.

(** C1, amended (bulk send over the limit).  For a token list longer than
    the limit (a limit of at least 1), [gcm_send_bulk_message] splits the
    list with [_chunks] and sends the chunks one after the other, in order.
    Either every send returns: then one request per chunk went out, in
    chunk order, and the list of the chunks' values is returned.  Or some
    send raises: then the chunks before it were sent and returned, the
    failing chunk put at most its own request on the network, the call
    raises that same exception at once, and no later chunk is sent. *)
Theorem bulk_stops_at_first_error (SETTINGS : settings)
  (urlopen : nat -> http_request -> http_reply) (registration_ids : list string)
  (data collapse_key delay_while_idle time_to_live : json) (w : world) :
  1 <= GCM_MAX_RECIPIENTS SETTINGS ->
  GCM_MAX_RECIPIENTS SETTINGS < Py.len registration_ids ->
  exists chunks : list (list string),
    _chunks registration_ids (GCM_MAX_RECIPIENTS SETTINGS) = Return chunks /\
    ((exists rs w',
         chunks_run SETTINGS urlopen data collapse_key delay_while_idle
           time_to_live chunks w rs w' /\
         sent w' =
           sent w ++
           map (fun c => gcm_request SETTINGS c data collapse_key delay_while_idle
                           time_to_live) chunks /\
         gcm_send_bulk_message SETTINGS urlopen registration_ids data collapse_key
           delay_while_idle time_to_live w = (w', Return (PerChunk rs))) \/
     (exists pre c post rs w1 w2 e,
         chunks = pre ++ c :: post /\
         chunks_run SETTINGS urlopen data collapse_key delay_while_idle
           time_to_live pre w rs w1 /\
         sent w1 =
           sent w ++
           map (fun c => gcm_request SETTINGS c data collapse_key delay_while_idle
                           time_to_live) pre /\
         _gcm_send_json SETTINGS urlopen c data collapse_key delay_while_idle
           time_to_live w1 = (w2, Raise e) /\
         (sent w2 = sent w1 \/
          sent w2 =
            sent w1 ++
            [gcm_request SETTINGS c data collapse_key delay_while_idle
               time_to_live]) /\
         gcm_send_bulk_message SETTINGS urlopen registration_ids data collapse_key
           delay_while_idle time_to_live w = (w2, Raise e))).
Proof.
  intros Hmax Hlen.
  exists (windows registration_ids (Z.to_nat (GCM_MAX_RECIPIENTS SETTINGS))).
  split; [apply chunks_windows; exact Hmax|].
  rewrite (bulk_over_limit SETTINGS urlopen registration_ids data collapse_key
             delay_while_idle time_to_live w Hmax Hlen).
  assert (Hpos : (0 < Z.to_nat (GCM_MAX_RECIPIENTS SETTINGS))%nat) by lia.
  destruct (send_chunks_cases SETTINGS urlopen data collapse_key delay_while_idle
              time_to_live
              (windows registration_ids (Z.to_nat (GCM_MAX_RECIPIENTS SETTINGS)))
              [] w (windows_nonempty registration_ids _ Hpos))
    as [[rs [w' [Hruns [Hs Hsend]]]]
       | [pre [c [post [rs [w1 [w2 [e [Hsplit [Hruns [Hs [Hfail [Hs2 Hsend]]]]]]]]]]]]].
  - left. exists rs, w'. rewrite Hsend. repeat split; assumption.
  - right. exists pre, c, post, rs, w1, w2, e. rewrite Hsend.
    repeat split; assumption.
Qed.

(** C1 as stated fails on the specification's own example: 2500 tokens,
    a limit of 1000, the second chunk answered with a rejection.  Two
    requests go out, for the first and the second thousand; the call raises
    [GCMError] and the third chunk is never sent. *)
Lemma bulk_stops_at_first_error_counterexample :
  Py.len (Sample.many_tokens 2500) = 2500 /\
  gcm_send_bulk_message (Sample.configured 1000) (Sample.second_fails 1000)
    (Sample.many_tokens 2500) Sample.payload JNull (JBool false) (JNum 0)
    (Sample.world_of []) =
  ({| devices := [];
      sent :=
        [gcm_request (Sample.configured 1000)
           (firstn 1000 (Sample.many_tokens 2500))
           Sample.payload JNull (JBool false) (JNum 0);
         gcm_request (Sample.configured 1000)
           (firstn 1000 (skipn 1000 (Sample.many_tokens 2500)))
           Sample.payload JNull (JBool false) (JNum 0)] |},
   Raise (GCMError (Sample.unavailable 1000))).
Proof. split; vm_compute; reflexivity. Qed.

Lemma bulk_stops_at_first_error_witness :
  exists chunks : list (list string),
    _chunks (Sample.many_tokens 5) (GCM_MAX_RECIPIENTS (Sample.configured 2)) =
      Return chunks /\
    ((exists rs w',
         chunks_run (Sample.configured 2) (Sample.second_fails 2) Sample.payload
           JNull (JBool false) (JNum 0) chunks (Sample.world_of []) rs w' /\
         sent w' =
           sent (Sample.world_of []) ++
           map (fun c => gcm_request (Sample.configured 2) c Sample.payload JNull
                           (JBool false) (JNum 0)) chunks /\
         gcm_send_bulk_message (Sample.configured 2) (Sample.second_fails 2)
           (Sample.many_tokens 5) Sample.payload JNull (JBool false) (JNum 0)
           (Sample.world_of []) = (w', Return (PerChunk rs))) \/
     (exists pre c post rs w1 w2 e,
         chunks = pre ++ c :: post /\
         chunks_run (Sample.configured 2) (Sample.second_fails 2) Sample.payload
           JNull (JBool false) (JNum 0) pre (Sample.world_of []) rs w1 /\
         sent w1 =
           sent (Sample.world_of []) ++
           map (fun c => gcm_request (Sample.configured 2) c Sample.payload JNull
                           (JBool false) (JNum 0)) pre /\
         _gcm_send_json (Sample.configured 2) (Sample.second_fails 2) c
           Sample.payload JNull (JBool false) (JNum 0) w1 = (w2, Raise e) /\
         (sent w2 = sent w1 \/
          sent w2 =
            sent w1 ++
            [gcm_request (Sample.configured 2) c Sample.payload JNull
               (JBool false) (JNum 0)]) /\
         gcm_send_bulk_message (Sample.configured 2) (Sample.second_fails 2)
           (Sample.many_tokens 5) Sample.payload JNull (JBool false) (JNum 0)
           (Sample.world_of []) = (w2, Raise e))).
Proof.
  apply (bulk_stops_at_first_error (Sample.configured 2) (Sample.second_fails 2)
           (Sample.many_tokens 5) Sample.payload JNull (JBool false) (JNum 0)
           (Sample.world_of [])).
  - simpl. lia.
  - vm_compute. reflexivity.
Defined.

(** With a gateway that accepts everything, 2500 tokens and a limit of
    1000 give three requests, of 1000, 1000 and 500 tokens, in that
    order, and the three values come back as a list. *)
Example bulk_2500_accepted :
  gcm_send_bulk_message (Sample.configured 1000) Sample.accepts_all
    (Sample.many_tokens 2500) Sample.payload JNull (JBool false) (JNum 0)
    (Sample.world_of []) =
  ({| devices := [];
      sent :=
        map (fun c => gcm_request (Sample.configured 1000) c Sample.payload JNull
                        (JBool false) (JNum 0))
          [firstn 1000 (Sample.many_tokens 2500);
           firstn 1000 (skipn 1000 (Sample.many_tokens 2500));
           skipn 2000 (Sample.many_tokens 2500)] |},
   Return (PerChunk (repeat (Some (Sample.response_of 0 0 [])) 3))) /\
  map (@length string)
    [firstn 1000 (Sample.many_tokens 2500);
     firstn 1000 (skipn 1000 (Sample.many_tokens 2500));
     skipn 2000 (Sample.many_tokens 2500)] = [1000; 1000; 500]%nat.
Proof. split; vm_compute; reflexivity. Qed.

(** *** Missing API key *)

(** C8 (no key, no request).  With no API key set ([None] or the empty
    string), [_gcm_send] raises [ImproperlyConfigured] and leaves the world
    as it was, so nothing reaches the network; so do [_gcm_send_json] on a
    non-empty token list, [gcm_send_message], and [gcm_send_bulk_message]
    on a non-empty list under a limit of at least 1. *)
Theorem no_key_no_request (SETTINGS : settings)
  (urlopen : nat -> http_request -> http_reply) (registration_ids : list string)
  (data collapse_key delay_while_idle time_to_live : json) (w : world) :
  Py.opt_truthy (GCM_API_KEY SETTINGS) = false ->
  registration_ids <> [] ->
  (forall body content_type : string,
     _gcm_send SETTINGS urlopen body content_type w =
       (w, Raise ImproperlyConfigured)) /\
  _gcm_send_json SETTINGS urlopen registration_ids data collapse_key
    delay_while_idle time_to_live w = (w, Raise ImproperlyConfigured) /\
  (forall registration_id : string,
     gcm_send_message SETTINGS urlopen registration_id data collapse_key
       delay_while_idle time_to_live w = (w, Raise ImproperlyConfigured)) /\
  (1 <= GCM_MAX_RECIPIENTS SETTINGS ->
   gcm_send_bulk_message SETTINGS urlopen registration_ids data collapse_key
     delay_while_idle time_to_live w = (w, Raise ImproperlyConfigured)).
Proof.
  intros Hkey Hne.
  assert (Hjson : forall ids : list string, ids <> [] ->
            _gcm_send_json SETTINGS urlopen ids data collapse_key delay_while_idle
              time_to_live w = (w, Raise ImproperlyConfigured)).
  { intros ids Hids.
    rewrite (send_json_run SETTINGS urlopen data collapse_key delay_while_idle
               time_to_live ids w Hids).
    rewrite Hkey. reflexivity. }
  split; [intros; apply gcm_send_no_key; exact Hkey|].
  split; [apply Hjson; exact Hne|].
  split.
  - intros registration_id. unfold gcm_send_message, bind.
    rewrite Hjson by discriminate. reflexivity.
  - intros Hmax.
    destruct (Z.ltb_spec (GCM_MAX_RECIPIENTS SETTINGS) (Py.len registration_ids))
      as [Hlt|Hge].
    + rewrite (bulk_over_limit SETTINGS urlopen registration_ids data collapse_key
                 delay_while_idle time_to_live w Hmax Hlt).
      pose proof (windows_nonempty registration_ids
                    (Z.to_nat (GCM_MAX_RECIPIENTS SETTINGS)) ltac:(lia)) as Hall.
      destruct (windows registration_ids (Z.to_nat (GCM_MAX_RECIPIENTS SETTINGS)))
        as [|c cs] eqn:Ew.
      * exfalso. pose proof (windows_concat registration_ids
                    (Z.to_nat (GCM_MAX_RECIPIENTS SETTINGS)) ltac:(lia)) as Hcat.
        rewrite Ew in Hcat. simpl in Hcat. congruence.
      * inversion Hall as [|c' cs' Hc Hcs]; subst.
        simpl. unfold bind at 1. rewrite (Hjson c Hc). reflexivity.
    + unfold gcm_send_bulk_message.
      apply Z.ltb_ge in Hge. rewrite Hge.
      unfold bind. rewrite (Hjson registration_ids Hne). reflexivity.
Qed.

Lemma no_key_no_request_witness :
  (forall body content_type : string,
     _gcm_send (Sample.settings_of None 1000) Sample.accepts_all body content_type
       (Sample.world_of []) = (Sample.world_of [], Raise ImproperlyConfigured)) /\
  _gcm_send_json (Sample.settings_of None 1000) Sample.accepts_all ["A"%string]
    Sample.payload JNull (JBool false) (JNum 0) (Sample.world_of []) =
    (Sample.world_of [], Raise ImproperlyConfigured) /\
  (forall registration_id : string,
     gcm_send_message (Sample.settings_of None 1000) Sample.accepts_all
       registration_id Sample.payload JNull (JBool false) (JNum 0)
       (Sample.world_of []) = (Sample.world_of [], Raise ImproperlyConfigured)) /\
  (1 <= GCM_MAX_RECIPIENTS (Sample.settings_of None 1000) ->
   gcm_send_bulk_message (Sample.settings_of None 1000) Sample.accepts_all
     ["A"%string] Sample.payload JNull (JBool false) (JNum 0) (Sample.world_of []) =
     (Sample.world_of [], Raise ImproperlyConfigured)).
Proof.
  apply (no_key_no_request (Sample.settings_of None 1000) Sample.accepts_all
           ["A"%string] Sample.payload JNull (JBool false) (JNum 0)
           (Sample.world_of [])).
  - reflexivity.
  - discriminate.
Defined.

(** *** Key order in the serialised envelope *)

Lemma leb_iff (s1 s2 : string) :
  String.leb s1 s2 = true <-> s1 = s2 \/ String_as_OT.lt s1 s2.
Proof.
  unfold String.leb.
  pose proof (String_as_OT.cmp_eq s1 s2) as Heq.
  pose proof (String_as_OT.cmp_lt s1 s2) as Hlt.
  unfold String_as_OT.cmp in Heq, Hlt.
  destruct (String.compare s1 s2) eqn:Ec.
  - split; [intros _; left; now apply Heq|reflexivity].
  - split; [intros _; right; now apply Hlt|reflexivity].
  - split; [discriminate|].
    intros [H|H]; [apply Heq in H|apply Hlt in H]; discriminate.
Qed.

Lemma leb_trans (s1 s2 s3 : string) :
  String.leb s1 s2 = true -> String.leb s2 s3 = true -> String.leb s1 s3 = true.
Proof.
  rewrite !leb_iff. intros [-> | H12] [-> | H23]; auto.
  right. exact (String_as_OT.lt_trans _ _ _ H12 H23).
Qed.

Lemma leb_false_flip (s1 s2 : string) :
  String.leb s1 s2 = false -> String.leb s2 s1 = true.
Proof. intros H. destruct (String.leb_total s1 s2) as [H'|H']; congruence. Qed.

Lemma leb_distinct (s1 s2 : string) :
  s1 <> s2 -> String.leb s1 s2 = true -> String.leb s2 s1 = false.
Proof.
  intros Hne H12. destruct (String.leb s2 s1) eqn:H21; [|reflexivity].
  elim Hne. apply String.leb_antisym; assumption.
Qed.

(** Two insertions of items with different keys commute. *)
Lemma insert_item_comm (x y : string * string) (l : list (string * string)) :
  fst x <> fst y ->
  Json.insert_item x (Json.insert_item y l) = Json.insert_item y (Json.insert_item x l).
Proof.
  intros Hne. induction l as [|s l IH].
  - simpl. destruct (String.leb (fst x) (fst y)) eqn:Hxy.
    + now rewrite (leb_distinct _ _ Hne Hxy).
    + now rewrite (leb_false_flip _ _ Hxy).
  - simpl.
    destruct (String.leb (fst y) (fst s)) eqn:Hys;
      destruct (String.leb (fst x) (fst s)) eqn:Hxs; simpl;
      rewrite ?Hys, ?Hxs.
    + destruct (String.leb (fst x) (fst y)) eqn:Hxy.
      * rewrite (leb_distinct _ _ Hne Hxy). simpl. now rewrite ?Hys, ?Hxs.
      * rewrite (leb_false_flip _ _ Hxy). simpl. now rewrite ?Hys, ?Hxs.
    + destruct (String.leb (fst x) (fst y)) eqn:Hxy.
      * rewrite (leb_trans _ _ _ Hxy Hys) in Hxs. discriminate.
      * simpl. now rewrite ?Hys, ?Hxs.
    + destruct (String.leb (fst y) (fst x)) eqn:Hyx.
      * rewrite (leb_trans _ _ _ Hyx Hxs) in Hys. discriminate.
      * simpl. now rewrite ?Hys, ?Hxs.
    + now rewrite IH.
Qed.

(** The sorted items do not depend on the order the dictionary lists its
    keys in. *)
Lemma sort_items_perm (l l' : list (string * string)) :
  Permutation l l' -> NoDup (map fst l) -> Json.sort_items l = Json.sort_items l'.
Proof.
  induction 1 as [|x l l' Hp IH|x y l|l l' l'' Hp1 IH1 Hp2 IH2]; intros Hnd.
  - reflexivity.
  - simpl. inversion Hnd; subst. now rewrite IH.
  - simpl. apply insert_item_comm.
    simpl in Hnd. inversion Hnd as [|a b Hnotin _]; subst.
    intros Heq. apply Hnotin. left. symmetry. exact Heq.
  - rewrite IH1 by exact Hnd. apply IH2.
    apply (Permutation_NoDup (Permutation_map fst Hp1) Hnd).
Qed.

Lemma insert_item_sorted (x : string * string) (l : list (string * string)) :
  Sorted (fun a b => String.leb (fst a) (fst b) = true) l ->
  Sorted (fun a b => String.leb (fst a) (fst b) = true) (Json.insert_item x l).
Proof.
  induction l as [|s l IH]; intros Hs; simpl.
  - constructor; constructor.
  - destruct (String.leb (fst x) (fst s)) eqn:Hxs.
    + constructor; [exact Hs|]. constructor. exact Hxs.
    + inversion Hs as [|a b Hsl Hhd]; subst.
      constructor; [apply IH; exact Hsl|].
      destruct l as [|s' l]; simpl.
      * constructor. now apply leb_false_flip.
      * destruct (String.leb (fst x) (fst s')).
        -- constructor. now apply leb_false_flip.
        -- inversion Hhd; subst. constructor. assumption.
Qed.

Lemma sort_items_sorted (l : list (string * string)) :
  Sorted (fun a b => String.leb (fst a) (fst b) = true) (Json.sort_items l).
Proof.
  induction l as [|x l IH]; simpl; [constructor|].
  apply insert_item_sorted. exact IH.
Qed.

Lemma dumps_dict (kvs : list (string * json)) :
  Json.dumps (JDict kvs) =
  ("{" ++ String.concat ","
            (map Json.render_item
               (Json.sort_items
                  (map (fun kv => let '(k, x) := kv in (k, Json.dumps x)) kvs)))
       ++ "}")%string.
Proof. reflexivity. Qed.

(** A dictionary serialises to the same text whatever order it lists its
    (distinct) keys in. *)
Lemma dumps_dict_perm (kvs kvs' : list (string * json)) :
  Permutation kvs kvs' -> NoDup (map fst kvs) ->
  Json.dumps (JDict kvs) = Json.dumps (JDict kvs').
Proof.
  intros Hp Hnd. rewrite !dumps_dict. do 4 f_equal.
  apply sort_items_perm.
  - apply Permutation_map. exact Hp.
  - rewrite map_map.
    rewrite (map_ext _ fst); [exact Hnd|]. intros [k x]. reflexivity.
Qed.

(** *** The same content gives the same text *)

Lemma json_nested_ind (P : json -> Prop) :
  P JNull ->
  (forall b, P (JBool b)) ->
  (forall n, P (JNum n)) ->
  (forall s, P (JStr s)) ->
  (forall xs, Forall P xs -> P (JList xs)) ->
  (forall kvs, Forall (fun kv => P (snd kv)) kvs -> P (JDict kvs)) ->
  forall v, P v.
Proof.
  intros Hnull Hbool Hnum Hstr Hlist Hdict. fix IH 1.
  intros [|b|n|s|xs|kvs].
  - exact Hnull.
  - apply Hbool.
  - apply Hnum.
  - apply Hstr.
  - apply Hlist. induction xs as [|x xs IHxs]; constructor; [apply IH|exact IHxs].
  - apply Hdict. induction kvs as [|[k x] kvs IHkvs]; constructor;
      [apply IH|exact IHkvs].
Qed.

Lemma distinct_NoDup (keys : list string) :
  Json.distinct keys = true -> NoDup keys.
Proof.
  induction keys as [|k keys IH]; simpl; intros H; constructor.
  - apply andb_true_iff in H. destruct H as [H _].
    intros Hin. apply negb_true_iff in H.
    assert (Hex : existsb (String.eqb k) keys = true).
    { apply existsb_exists. exists k. split; [exact Hin|apply String.eqb_refl]. }
    congruence.
  - apply IH. apply andb_true_iff in H. tauto.
Qed.

Lemma same_content_dumps :
  forall a b : json,
    Json.distinct_keys a = true -> Json.same_content a b = true ->
    Json.dumps a = Json.dumps b.
Proof.
  induction a as [|x|x|x|xs IH|kxs IH] using json_nested_ind;
    intros b Hkeys Hsame.
  - destruct b; try discriminate. reflexivity.
  - destruct b as [|y| | | |]; try discriminate. simpl in Hsame.
    apply Bool.eqb_prop in Hsame. now subst.
  - destruct b as [| |y| | |]; try discriminate. simpl in Hsame.
    apply Z.eqb_eq in Hsame. now subst.
  - destruct b as [| | |y| |]; try discriminate. simpl in Hsame.
    apply String.eqb_eq in Hsame. now subst.
  - destruct b as [| | | |ys|]; try discriminate.
    simpl in Hkeys, Hsame.
    assert (Hmap : map Json.dumps xs = map Json.dumps ys).
    { revert ys Hsame. induction xs as [|x xs IHxs]; intros [|y ys] Hsame;
        try discriminate; [reflexivity|].
      apply andb_true_iff in Hsame. destruct Hsame as [Hx Hrest].
      simpl in Hkeys. apply andb_true_iff in Hkeys. destruct Hkeys as [Kx Krest].
      inversion IH as [|? ? IHx IHrest]; subst.
      simpl. rewrite (IHx y Kx Hx). rewrite (IHxs IHrest Krest ys Hrest).
      reflexivity. }
    simpl. now rewrite Hmap.
  - destruct b as [| | | | |kys]; try discriminate.
    simpl in Hkeys, Hsame.
    apply andb_true_iff in Hkeys. destruct Hkeys as [Kdist Kall].
    apply andb_true_iff in Hsame. destruct Hsame as [Hlen Hall].
    apply Nat.eqb_eq in Hlen.
    rewrite !dumps_dict. do 4 f_equal.
    set (text := fun kv : string * json => let '(k, x) := kv in (k, Json.dumps x)).
    assert (Hfst : forall l, map fst (map text l) = map fst l).
    { intros l. rewrite map_map. apply map_ext. intros [k x]. reflexivity. }
    assert (Hnd : NoDup (map fst (map text kxs))).
    { rewrite Hfst. now apply distinct_NoDup. }
    apply sort_items_perm; [|exact Hnd].
    apply NoDup_Permutation_bis.
    + apply (NoDup_map_inv fst). exact Hnd.
    + rewrite !length_map. lia.
    + intros [k tx] Hin. apply in_map_iff in Hin.
      destruct Hin as [[k' x] [Heq Hin]]. simpl in Heq. injection Heq as -> <-.
      rewrite forallb_forall in Hall. specialize (Hall (k, x) Hin).
      rewrite forallb_forall in Kall. specialize (Kall (k, x) Hin).
      rewrite Forall_forall in IH. specialize (IH (k, x) Hin).
      simpl in Hall, Kall, IH.
      destruct (find (fun ky => String.eqb k (fst ky)) kys) as [[k' y]|] eqn:Hfind;
        [|discriminate].
      apply find_some in Hfind. destruct Hfind as [Hy Hk]. simpl in Hk, Hall.
      apply String.eqb_eq in Hk. subst k'.
      rewrite (IH y Kall Hall).
      apply in_map_iff. exists (k, y). split; [reflexivity|exact Hy].
Qed.

Lemma same_content_truthy (a b : json) :
  Json.same_content a b = true ->
  Py.truthy a = Py.truthy b /\ Py.is_not_none a = Py.is_not_none b.
Proof.
  destruct a as [|x|x|x|xs|kxs], b as [|y|y|y|ys|kys]; simpl;
    try discriminate; intros H; split; try reflexivity.
  - now apply Bool.eqb_prop in H.
  - apply Z.eqb_eq in H. now subst.
  - apply String.eqb_eq in H. now subst.
  - destruct xs, ys; try discriminate; reflexivity.
  - apply andb_true_iff in H. destruct H as [H _]. apply Nat.eqb_eq in H.
    destruct kxs, kys; try discriminate; reflexivity.
Qed.

(** *** What a string literal reads *)

Lemma escape_plain (c : ascii) :
  Json.plain c = true -> Json.escape c = String c "".
Proof.
  destruct c as [b0 b1 b2 b3 b4 b5 b6 b7].
  destruct b0, b1, b2, b3, b4, b5, b6, b7; intros H; vm_compute in H;
    try discriminate H; reflexivity.
Qed.

Lemma quote_plain (s : string) :
  forallb Json.plain (list_ascii_of_string s) = true ->
  Json.quote s = String "034" (s ++ String "034" "").
Proof.
  intros H. unfold Json.quote. do 2 f_equal.
  induction s as [|c s IH]; [reflexivity|].
  simpl in H. apply andb_true_iff in H. destruct H as [Hc Hs].
  simpl. rewrite (escape_plain c Hc), (IH Hs). reflexivity.
Qed.

(** *** The request envelope *)

Lemma envelope_same_text (registration_ids : list string)
  (d d' collapse_key delay_while_idle time_to_live : json) :
  Json.dumps d = Json.dumps d' ->
  Py.is_not_none d = Py.is_not_none d' ->
  Json.dumps
    (JDict (envelope registration_ids d collapse_key delay_while_idle time_to_live)) =
  Json.dumps
    (JDict (envelope registration_ids d' collapse_key delay_while_idle time_to_live)).
Proof.
  intros Htext Hnone. rewrite !dumps_dict. do 4 f_equal.
  unfold envelope. rewrite <- Hnone.
  destruct (Py.is_not_none d), (Py.truthy collapse_key),
    (Py.truthy delay_while_idle), (Py.truthy time_to_live);
    cbn [Py.dict_set String.eqb Ascii.eqb Bool.eqb map]; rewrite ?Htext; reflexivity.
Qed.

Lemma send_json_sent_with_key (SETTINGS : settings)
  (urlopen : nat -> http_request -> http_reply) (registration_ids : list string)
  (data collapse_key delay_while_idle time_to_live : json) (w : world) :
  registration_ids <> [] ->
  Py.opt_truthy (GCM_API_KEY SETTINGS) = true ->
  sent (fst (_gcm_send_json SETTINGS urlopen registration_ids data collapse_key
               delay_while_idle time_to_live w)) =
  sent w ++
  [gcm_request SETTINGS registration_ids data collapse_key delay_while_idle
     time_to_live].
Proof.
  intros Hne Hkey.
  rewrite (send_json_run SETTINGS urlopen data collapse_key delay_while_idle
             time_to_live registration_ids w Hne).
  rewrite Hkey. cbv zeta.
  destruct (urlopen _ _) as [parsed|status]; [|reflexivity].
  match goal with
  | |- context [_cm_handle_response ?ids ?r ?w1] =>
      pose proof (handle_response_sent ids r w1) as Hs;
      destruct (_cm_handle_response ids r w1) as [w2 [response|e]]
  end; exact Hs.
Qed.

(** The text of the serialised dictionary, member by member. *)
Lemma envelope_reads (registration_ids : list string)
  (data collapse_key delay_while_idle time_to_live : json) :
  Json.dumps
    (JDict (envelope registration_ids data collapse_key delay_while_idle
              time_to_live)) =
  ("{" ++
   String.concat ","
     ((if Py.truthy collapse_key
       then [Json.member "collapse_key" (Json.dumps collapse_key)] else []) ++
      (if Py.is_not_none data
       then [Json.member "data" (Json.dumps data)] else []) ++
      (if Py.truthy delay_while_idle
       then [Json.member "delay_while_idle" (Json.dumps delay_while_idle)] else []) ++
      [Json.member "registration_ids"
         ("[" ++ String.concat "," (map Json.quote registration_ids) ++ "]")] ++
      (if Py.truthy time_to_live
       then [Json.member "time_to_live" (Json.dumps time_to_live)] else [])) ++
   "}")%string.
Proof.
  assert (Hids : Json.dumps (JList (map JStr registration_ids)) =
                 ("[" ++ String.concat "," (map Json.quote registration_ids) ++ "]")%string).
  { simpl. rewrite map_map. reflexivity. }
  rewrite <- Hids. unfold envelope.
  generalize (JList (map JStr registration_ids)). intros r.
  destruct (Py.is_not_none data), (Py.truthy collapse_key),
    (Py.truthy delay_while_idle), (Py.truthy time_to_live); reflexivity.
Qed.

Lemma envelope_same_content (registration_ids : list string)
  (data collapse_key delay_while_idle time_to_live : json)
  (data' collapse_key' delay_while_idle' time_to_live' : json) :
  Json.distinct_keys data = true -> Json.same_content data data' = true ->
  Json.distinct_keys collapse_key = true ->
  Json.same_content collapse_key collapse_key' = true ->
  Json.distinct_keys delay_while_idle = true ->
  Json.same_content delay_while_idle delay_while_idle' = true ->
  Json.distinct_keys time_to_live = true ->
  Json.same_content time_to_live time_to_live' = true ->
  Json.dumps
    (JDict (envelope registration_ids data' collapse_key' delay_while_idle'
              time_to_live')) =
  Json.dumps
    (JDict (envelope registration_ids data collapse_key delay_while_idle
              time_to_live)).
Proof.
  intros K1 S1 K2 S2 K3 S3 K4 S4. rewrite !envelope_reads.
  destruct (same_content_truthy _ _ S1) as [_ N1].
  destruct (same_content_truthy _ _ S2) as [T2 _].
  destruct (same_content_truthy _ _ S3) as [T3 _].
  destruct (same_content_truthy _ _ S4) as [T4 _].
  rewrite <- N1, <- T2, <- T3, <- T4.
  rewrite <- (same_content_dumps _ _ K1 S1), <- (same_content_dumps _ _ K2 S2),
    <- (same_content_dumps _ _ K3 S3), <- (same_content_dumps _ _ K4 S4).
  reflexivity.
Qed.

(** C7 (request builder).  For a non-empty token list, the dictionary
    [_gcm_send_json] serialises always holds the tokens under
    "registration_ids"; it holds "data" exactly when the data is not
    [None], "collapse_key", "delay_while_idle" and "time_to_live" exactly
    when the value given is true as Python reads it (so not for an empty
    key, [False] or zero), each with the value given, and no other key.
    When a key is configured, the request put on the network carries the
    serialisation of that dictionary as its body.  That body reads: an
    opening brace; the members that are present, in the order
    collapse_key, data, delay_while_idle, registration_ids, time_to_live,
    each as the quoted key, a colon and the text of the value, with a
    comma and no space between two members; a closing brace; the token
    list reads as a bracketed, comma-separated list of string literals.  A
    string literal of printable ASCII characters other than the quote and
    the backslash is the string between two quotes, and the scalars read
    null, true, false, the literal of a string and the decimal digits of
    an integer.  The serialisation lists the keys in sorted order, and it
    is the same text for any arguments with the same content: values that
    differ only in the order in which their dictionaries, at any depth,
    list their keys. *)
Theorem request_envelope (SETTINGS : settings)
  (urlopen : nat -> http_request -> http_reply) (registration_ids : list string)
  (data collapse_key delay_while_idle time_to_live : json) (w : world) :
  registration_ids <> [] ->
  exists values : list (string * json),
    envelope registration_ids data collapse_key delay_while_idle time_to_live =
      values /\
    Py.dict_get "registration_ids" values = JList (map JStr registration_ids) /\
    (Py.dict_has "data" values = Py.is_not_none data /\
     Py.dict_get "data" values = data) /\
    (Py.dict_has "collapse_key" values = Py.truthy collapse_key /\
     (Py.truthy collapse_key = true ->
      Py.dict_get "collapse_key" values = collapse_key)) /\
    (Py.dict_has "delay_while_idle" values = Py.truthy delay_while_idle /\
     (Py.truthy delay_while_idle = true ->
      Py.dict_get "delay_while_idle" values = delay_while_idle)) /\
    (Py.dict_has "time_to_live" values = Py.truthy time_to_live /\
     (Py.truthy time_to_live = true ->
      Py.dict_get "time_to_live" values = time_to_live)) /\
    NoDup (map fst values) /\
    incl (map fst values)
      ["registration_ids"; "data"; "collapse_key"; "delay_while_idle";
       "time_to_live"]%string /\
    (Py.opt_truthy (GCM_API_KEY SETTINGS) = true ->
     exists rq : http_request,
       sent (fst (_gcm_send_json SETTINGS urlopen registration_ids data
                    collapse_key delay_while_idle time_to_live w)) =
         sent w ++ [rq] /\
       req_data rq = Json.dumps (JDict values)) /\
    Sorted (fun a b => String.leb (fst a) (fst b) = true)
      (Json.sort_items
         (map (fun kv => let '(k, x) := kv in (k, Json.dumps x)) values)) /\
    (forall kvs kvs' : list (string * json),
       data = JDict kvs -> Permutation kvs kvs' -> NoDup (map fst kvs) ->
       Json.dumps
         (JDict (envelope registration_ids (JDict kvs') collapse_key
                   delay_while_idle time_to_live)) =
       Json.dumps (JDict values)) /\
    Json.dumps (JDict values) =
      ("{" ++
       String.concat ","
         ((if Py.truthy collapse_key
           then [Json.member "collapse_key" (Json.dumps collapse_key)] else []) ++
          (if Py.is_not_none data
           then [Json.member "data" (Json.dumps data)] else []) ++
          (if Py.truthy delay_while_idle
           then [Json.member "delay_while_idle" (Json.dumps delay_while_idle)] else []) ++
          [Json.member "registration_ids"
             ("[" ++ String.concat "," (map Json.quote registration_ids) ++ "]")] ++
          (if Py.truthy time_to_live
           then [Json.member "time_to_live" (Json.dumps time_to_live)] else [])) ++
       "}")%string /\
    (forall t : string,
       forallb Json.plain (list_ascii_of_string t) = true ->
       Json.quote t = String "034" (t ++ String "034" "")) /\
    (Json.dumps JNull = "null"%string /\
     Json.dumps (JBool true) = "true"%string /\
     Json.dumps (JBool false) = "false"%string /\
     (forall s : string, Json.dumps (JStr s) = Json.quote s) /\
     (forall n : Z, Json.dumps (JNum n) = NilZero.string_of_int (Z.to_int n))) /\
    (forall data' collapse_key' delay_while_idle' time_to_live' : json,
       Json.distinct_keys data = true ->
       Json.same_content data data' = true ->
       Json.distinct_keys collapse_key = true ->
       Json.same_content collapse_key collapse_key' = true ->
       Json.distinct_keys delay_while_idle = true ->
       Json.same_content delay_while_idle delay_while_idle' = true ->
       Json.distinct_keys time_to_live = true ->
       Json.same_content time_to_live time_to_live' = true ->
       Json.dumps
         (JDict (envelope registration_ids data' collapse_key' delay_while_idle'
                   time_to_live')) =
       Json.dumps (JDict values)).
Proof.
  intros Hne.
  exists (envelope registration_ids data collapse_key delay_while_idle time_to_live).
  split; [reflexivity|].
  assert (Hfields :
    Py.dict_get "registration_ids"
      (envelope registration_ids data collapse_key delay_while_idle time_to_live) =
      JList (map JStr registration_ids) /\
    (Py.dict_has "data"
       (envelope registration_ids data collapse_key delay_while_idle time_to_live) =
       Py.is_not_none data /\
     Py.dict_get "data"
       (envelope registration_ids data collapse_key delay_while_idle time_to_live) =
       data) /\
    (Py.dict_has "collapse_key"
       (envelope registration_ids data collapse_key delay_while_idle time_to_live) =
       Py.truthy collapse_key /\
     (Py.truthy collapse_key = true ->
      Py.dict_get "collapse_key"
        (envelope registration_ids data collapse_key delay_while_idle time_to_live) =
        collapse_key)) /\
    (Py.dict_has "delay_while_idle"
       (envelope registration_ids data collapse_key delay_while_idle time_to_live) =
       Py.truthy delay_while_idle /\
     (Py.truthy delay_while_idle = true ->
      Py.dict_get "delay_while_idle"
        (envelope registration_ids data collapse_key delay_while_idle time_to_live) =
        delay_while_idle)) /\
    (Py.dict_has "time_to_live"
       (envelope registration_ids data collapse_key delay_while_idle time_to_live) =
       Py.truthy time_to_live /\
     (Py.truthy time_to_live = true ->
      Py.dict_get "time_to_live"
        (envelope registration_ids data collapse_key delay_while_idle time_to_live) =
        time_to_live)) /\
    NoDup (map fst
             (envelope registration_ids data collapse_key delay_while_idle
                time_to_live)) /\
    incl (map fst
            (envelope registration_ids data collapse_key delay_while_idle
               time_to_live))
      ["registration_ids"; "data"; "collapse_key"; "delay_while_idle";
       "time_to_live"]%string).
  { unfold envelope.
    assert (Hnull : Py.is_not_none data = false -> JNull = data)
      by (destruct data; simpl; congruence).
    destruct (Py.is_not_none data) eqn:Ed, (Py.truthy collapse_key) eqn:Ec,
      (Py.truthy delay_while_idle) eqn:Ei, (Py.truthy time_to_live) eqn:Et;
      cbn [Py.dict_set Py.dict_get Py.dict_has existsb fst map
           String.eqb Ascii.eqb Bool.eqb orb];
      (repeat split; try reflexivity; try discriminate; try (now apply Hnull);
       try (repeat constructor; simpl; intuition discriminate);
       try (intros k Hk; simpl in Hk |- *; intuition)). }
  destruct Hfields as [H1 [H2 [H3 [H4 [H5 [H6 H7]]]]]].
  repeat (split; [assumption|]).
  split; [|split; [|split; [|split; [|split; [|split]]]]].
  - intros Hkey.
    exists (gcm_request SETTINGS registration_ids data collapse_key
              delay_while_idle time_to_live).
    split; [|reflexivity].
    apply send_json_sent_with_key; assumption.
  - apply sort_items_sorted.
  - intros kvs kvs' -> Hp Hnd.
    apply envelope_same_text; [|reflexivity].
    symmetry. apply dumps_dict_perm; assumption.
  - apply envelope_reads.
  - apply quote_plain.
  - repeat split.
  - intros data' collapse_key' delay_while_idle' time_to_live'.
    apply envelope_same_content.
Qed.

Lemma request_envelope_witness :
  exists values : list (string * json),
    envelope Sample.tokens_abc Sample.payload (JStr "update"%string) (JBool false) (JNum 0) =
      values /\
    Py.dict_get "registration_ids" values = JList (map JStr Sample.tokens_abc) /\
    (Py.dict_has "data" values = Py.is_not_none Sample.payload /\
     Py.dict_get "data" values = Sample.payload) /\
    (Py.dict_has "collapse_key" values = Py.truthy (JStr "update"%string) /\
     (Py.truthy (JStr "update"%string) = true ->
      Py.dict_get "collapse_key" values = (JStr "update"%string))) /\
    (Py.dict_has "delay_while_idle" values = Py.truthy (JBool false) /\
     (Py.truthy (JBool false) = true ->
      Py.dict_get "delay_while_idle" values = (JBool false))) /\
    (Py.dict_has "time_to_live" values = Py.truthy (JNum 0) /\
     (Py.truthy (JNum 0) = true ->
      Py.dict_get "time_to_live" values = (JNum 0))) /\
    NoDup (map fst values) /\
    incl (map fst values)
      ["registration_ids"; "data"; "collapse_key"; "delay_while_idle";
       "time_to_live"]%string /\
    (Py.opt_truthy (GCM_API_KEY (Sample.configured 1000)) = true ->
     exists rq : http_request,
       sent (fst (_gcm_send_json (Sample.configured 1000) Sample.accepts_all Sample.tokens_abc Sample.payload
                    (JStr "update"%string) (JBool false) (JNum 0) (Sample.world_of []))) =
         sent (Sample.world_of []) ++ [rq] /\
       req_data rq = Json.dumps (JDict values)) /\
    Sorted (fun a b => String.leb (fst a) (fst b) = true)
      (Json.sort_items
         (map (fun kv => let '(k, x) := kv in (k, Json.dumps x)) values)) /\
    (forall kvs kvs' : list (string * json),
       Sample.payload = JDict kvs -> Permutation kvs kvs' -> NoDup (map fst kvs) ->
       Json.dumps
         (JDict (envelope Sample.tokens_abc (JDict kvs') (JStr "update"%string)
                   (JBool false) (JNum 0))) =
       Json.dumps (JDict values)) /\
    Json.dumps (JDict values) =
      ("{" ++
       String.concat ","
         ((if Py.truthy (JStr "update"%string)
           then [Json.member "collapse_key" (Json.dumps (JStr "update"%string))] else []) ++
          (if Py.is_not_none Sample.payload
           then [Json.member "data" (Json.dumps Sample.payload)] else []) ++
          (if Py.truthy (JBool false)
           then [Json.member "delay_while_idle" (Json.dumps (JBool false))] else []) ++
          [Json.member "registration_ids"
             ("[" ++ String.concat "," (map Json.quote Sample.tokens_abc) ++ "]")] ++
          (if Py.truthy (JNum 0)
           then [Json.member "time_to_live" (Json.dumps (JNum 0))] else [])) ++
       "}")%string /\
    (forall t : string,
       forallb Json.plain (list_ascii_of_string t) = true ->
       Json.quote t = String "034" (t ++ String "034" "")) /\
    (Json.dumps JNull = "null"%string /\
     Json.dumps (JBool true) = "true"%string /\
     Json.dumps (JBool false) = "false"%string /\
     (forall s : string, Json.dumps (JStr s) = Json.quote s) /\
     (forall n : Z, Json.dumps (JNum n) = NilZero.string_of_int (Z.to_int n))) /\
    (forall data' collapse_key' delay_while_idle' time_to_live' : json,
       Json.distinct_keys Sample.payload = true ->
       Json.same_content Sample.payload data' = true ->
       Json.distinct_keys (JStr "update"%string) = true ->
       Json.same_content (JStr "update"%string) collapse_key' = true ->
       Json.distinct_keys (JBool false) = true ->
       Json.same_content (JBool false) delay_while_idle' = true ->
       Json.distinct_keys (JNum 0) = true ->
       Json.same_content (JNum 0) time_to_live' = true ->
       Json.dumps
         (JDict (envelope Sample.tokens_abc data' collapse_key' delay_while_idle'
                   time_to_live')) =
       Json.dumps (JDict values)).
Proof.
  apply (request_envelope (Sample.configured 1000) Sample.accepts_all
           Sample.tokens_abc Sample.payload (JStr "update"%string) (JBool false)
           (JNum 0) (Sample.world_of [])).
  discriminate.
Defined.

(** The body sent for tokens A, B, C with a message, a collapse key, no
    delay and no time to live: keys in sorted order, the two options that
    are false left out. *)
Example request_body_abc :
  Json.dumps
    (JDict (envelope Sample.tokens_abc Sample.payload (JStr "update"%string)
              (JBool false) (JNum 0))) =
  (String "{" (String "034" "collapse_key") ++
   String "034" ":" ++ String "034" "update" ++ String "034" "," ++
   String "034" "data" ++ String "034" ":{" ++ String "034" "message" ++
   String "034" ":" ++ String "034" "hello" ++ String "034" "}," ++
   String "034" "registration_ids" ++ String "034" ":[" ++
   String "034" "A" ++ String "034" "," ++ String "034" "B" ++ String "034" "," ++
   String "034" "C" ++ String "034" "]}")%string.
Proof. vm_compute. reflexivity. Qed.

(** *** Single send and bulk send *)

(** X1 (single send as bulk send).  Under a limit of at least 1,
    [gcm_send_message] does to the world what
    [gcm_send_bulk_message] does on the one-token list, and raises what it
    raises; the value the bulk send returns is dropped. *)
Theorem send_message_as_bulk (SETTINGS : settings)
  (urlopen : nat -> http_request -> http_reply) (registration_id : string)
  (data collapse_key delay_while_idle time_to_live : json) (w : world) :
  1 <= GCM_MAX_RECIPIENTS SETTINGS ->
  gcm_send_message SETTINGS urlopen registration_id data collapse_key
    delay_while_idle time_to_live w =
  forget
    (gcm_send_bulk_message SETTINGS urlopen [registration_id] data collapse_key
       delay_while_idle time_to_live w).
Proof.
  intros Hmax. unfold gcm_send_message, gcm_send_bulk_message.
  assert (Hlen : (GCM_MAX_RECIPIENTS SETTINGS <? Py.len [registration_id]) = false).
  { apply Z.ltb_ge. unfold Py.len. simpl. lia. }
  rewrite Hlen. unfold bind.
  destruct (_gcm_send_json SETTINGS urlopen [registration_id] data collapse_key
              delay_while_idle time_to_live w) as [w' [r|e]]; reflexivity.
Qed.

Lemma send_message_as_bulk_witness :
  gcm_send_message (Sample.configured 1000) Sample.accepts_all "A" Sample.payload
    JNull (JBool false) (JNum 0) (Sample.world_of [Sample.dev "A" true]) =
  forget
    (gcm_send_bulk_message (Sample.configured 1000) Sample.accepts_all ["A"%string]
       Sample.payload JNull (JBool false) (JNum 0)
       (Sample.world_of [Sample.dev "A" true])).
Proof.
  apply (send_message_as_bulk (Sample.configured 1000) Sample.accepts_all "A"
           Sample.payload JNull (JBool false) (JNum 0)
           (Sample.world_of [Sample.dev "A" true])).
  simpl. lia.
Defined.

(** C4 (single send against bulk send), at a concrete input.  The bulk
    send of the list [A] returns the gateway's response; the single send
    of A reaches the same world and returns nothing: the value of
    [_gcm_send_json] is not passed on by [gcm_send_message]. *)
Theorem send_message_drops_response :
  gcm_send_bulk_message (Sample.configured 1000) Sample.accepts_all ["A"%string]
    Sample.payload JNull (JBool false) (JNum 0)
    (Sample.world_of [Sample.dev "A" true]) =
  ({| devices := [Sample.dev "A" true];
      sent := [gcm_request (Sample.configured 1000) ["A"%string] Sample.payload
                 JNull (JBool false) (JNum 0)] |},
   Return (Single (Some (Sample.response_of 0 0 [])))) /\
  gcm_send_message (Sample.configured 1000) Sample.accepts_all "A" Sample.payload
    JNull (JBool false) (JNum 0) (Sample.world_of [Sample.dev "A" true]) =
  ({| devices := [Sample.dev "A" true];
      sent := [gcm_request (Sample.configured 1000) ["A"%string] Sample.payload
                 JNull (JBool false) (JNum 0)] |},
   Return tt).
Proof. split; vm_compute; reflexivity. Qed.

(** *** Results that do not fit, at concrete inputs *)

(** A response without a results array: [KeyError], nothing written. *)
Example results_missing :
  _cm_handle_response ["A"%string]
    {| failure := JNum 1; canonical_ids := JNum 0; results := None |}
    (Sample.world_of [Sample.dev "A" true]) =
  (Sample.world_of [Sample.dev "A" true], Raise (KeyError "results")).
Proof. reflexivity. Qed.

(** One token, two results, the second one terminal: [IndexError], and the
    deactivation the first entry asked for is not applied. *)
Example results_too_long :
  _cm_handle_response ["A"%string]
    (Sample.response_of 2 0
       [Sample.entry_error "NotRegistered"; Sample.entry_error "NotRegistered"])
    (Sample.world_of [Sample.dev "A" true]) =
  (Sample.world_of [Sample.dev "A" true], Raise IndexError).
Proof. reflexivity. Qed.

(** * Further properties of the code *)

(** ** What reconciliation does to each row *)

Lemma Forall2_same {A : Type} (R : A -> A -> Prop) (l : list A) :
  (forall a, R a a) -> Forall2 R l l.
Proof. intros H. induction l; constructor; auto. Qed.

Lemma Forall2_chain {A : Type} (R1 R2 R3 : A -> A -> Prop) (a b c : list A) :
  (forall x y z, R1 x y -> R2 y z -> R3 x z) ->
  Forall2 R1 a b -> Forall2 R2 b c -> Forall2 R3 a c.
Proof.
  intros H H1. revert c. induction H1 as [|x y a b Hxy Hab IH]; intros c H2.
  - inversion H2. constructor.
  - inversion H2 as [|y' z b' c' Hyz Hbc]; subst.
    constructor; [eapply H; eassumption|apply IH; exact Hbc].
Qed.

Lemma update_rows (R : GCMDevice -> GCMDevice -> Prop)
  (p : GCMDevice -> bool) (f : GCMDevice -> GCMDevice) (t : table) :
  (forall d, R d d) -> (forall d, p d = true -> R d (f d)) ->
  Forall2 R t (QuerySet.update p f t).
Proof.
  intros Hrefl Hstep. unfold QuerySet.update.
  apply Forall2_map_self. intros d. destruct (p d) eqn:E; auto.
Qed.

(** A relation between a row and what became of it that holds for every
    single write holds across the renames of a reconciliation. *)
Lemma fold_resolve_rows (R : GCMDevice -> GCMDevice -> Prop)
  (pairs : list (string * string)) :
  (forall d, R d d) ->
  (forall a b c, R a b -> R b c -> R a c) ->
  (forall d p, In p pairs -> registration_id d = fst p ->
     R d (QuerySet.set_active false d) /\
     R d (QuerySet.set_registration_id (snd p) d)) ->
  forall t : table, Forall2 R t (fold_left resolve pairs t).
Proof.
  intros Hrefl Htrans. induction pairs as [|p pairs IH]; intros Hstep t.
  - simpl. apply Forall2_same. exact Hrefl.
  - simpl. apply (Forall2_chain R R R t (resolve t p)); [exact Htrans| |].
    + destruct p as [old new]. unfold resolve.
      destruct (has_active new t); apply update_rows; try exact Hrefl;
        intros d Hd; apply registration_id_is_true in Hd;
        apply (Hstep d (old, new)); simpl; auto.
    + apply IH. intros d q Hq. apply Hstep. now right.
Qed.

Lemma reconcile_rows (R : GCMDevice -> GCMDevice -> Prop)
  (dead : list string) (pairs : list (string * string)) :
  (forall d, R d d) ->
  (forall a b c, R a b -> R b c -> R a c) ->
  (forall d, In (registration_id d) dead -> R d (QuerySet.set_active false d)) ->
  (forall d p, In p pairs -> registration_id d = fst p ->
     R d (QuerySet.set_active false d) /\
     R d (QuerySet.set_registration_id (snd p) d)) ->
  forall t : table, Forall2 R t (reconcile dead pairs t).
Proof.
  intros Hrefl Htrans Hdead Hstep t. unfold reconcile.
  apply (Forall2_chain R R R t (deactivate_all dead t)); [exact Htrans| |].
  - unfold deactivate_all. apply update_rows; [exact Hrefl|].
    intros d Hd. apply Hdead. now apply registration_id_in_true.
  - apply fold_resolve_rows; assumption.
Qed.

Lemma terminal_tokens_incl (tokens : list string) (rs : list gcm_result) (t : string) :
  In t (terminal_tokens tokens rs) -> In t tokens.
Proof.
  intros H. apply terminal_tokens_in in H.
  destruct H as [i [r [e [Ht _]]]]. exact (nth_error_In _ _ Ht).
Qed.

Lemma rename_pairs_incl (tokens : list string) (rs : list gcm_result)
  (p : string * string) :
  In p (rename_pairs tokens rs) -> In (fst p) tokens.
Proof.
  destruct p as [old new]. intros H. apply rename_pairs_in in H.
  destruct H as [i [r [Ht _]]]. exact (nth_error_In _ _ Ht).
Qed.

(** The rows of any call, related by a relation that every write on a row
    carrying one of the tokens respects. *)
Lemma handle_response_rows (R : GCMDevice -> GCMDevice -> Prop)
  (tokens : list string) (response : gcm_response) (w : world) :
  (forall d, R d d) ->
  (forall a b c, R a b -> R b c -> R a c) ->
  (forall d new, In (registration_id d) tokens ->
     R d (QuerySet.set_active false d) /\
     R d (QuerySet.set_registration_id new d)) ->
  Forall2 R (devices w) (devices (fst (_cm_handle_response tokens response w))).
Proof.
  intros Hrefl Htrans Hstep. rewrite handle_response_world.
  unfold with_devices. cbn [devices]. unfold reconciled_table.
  destruct (needs_reconciling response); [|apply Forall2_same; exact Hrefl].
  destruct (results response) as [rs|]; [|apply Forall2_same; exact Hrefl].
  destruct (existsb needs_token (skipn (length tokens) rs));
    [apply Forall2_same; exact Hrefl|].
  apply reconcile_rows; try assumption.
  - intros d Hd. apply (Hstep d EmptyString).
    exact (terminal_tokens_incl _ _ _ Hd).
  - intros d p Hp Hd. apply Hstep. rewrite Hd.
    exact (rename_pairs_incl _ _ _ Hp).
Qed.

(** X2 (rows of other devices).  Whatever the response holds and however
    the call ends, [_cm_handle_response] keeps the table's rows in place
    and leaves every row whose token is not among the tokens of the chunk
    exactly as it was. *)
Theorem handle_response_frame (tokens : list string) (response : gcm_response)
  (w : world) :
  Forall2 (fun d d' => ~ In (registration_id d) tokens -> d' = d)
    (devices w) (devices (fst (_cm_handle_response tokens response w))).
Proof.
  apply handle_response_rows.
  - intros d _. reflexivity.
  - intros a b c Hab Hbc Ha. pose proof (Hab Ha) as Hb. subst b.
    exact (Hbc Ha).
  - intros d new Hin. split; intros Hnot; contradiction.
Qed.

(** X3 (what is never written).  Whatever the response holds and however
    the call ends, [_cm_handle_response] adds and removes no row, never
    changes the owning application of a row, and never activates a row:
    a row that was inactive stays inactive. *)
Theorem handle_response_never_activates (tokens : list string)
  (response : gcm_response) (w : world) :
  length (devices (fst (_cm_handle_response tokens response w))) =
    length (devices w) /\
  Forall2
    (fun d d' =>
       application_id d' = application_id d /\
       (active d = false -> active d' = false))
    (devices w) (devices (fst (_cm_handle_response tokens response w))).
Proof.
  assert (H : Forall2
                (fun d d' =>
                   application_id d' = application_id d /\
                   (active d = false -> active d' = false))
                (devices w)
                (devices (fst (_cm_handle_response tokens response w)))).
  { apply handle_response_rows.
    - intros d. split; auto.
    - intros a b c [H1 H2] [H3 H4]. split; [congruence|auto].
    - intros d new _. split; split; simpl; auto. }
  split; [|exact H].
  symmetry. exact (Forall2_length H).
Qed.

(** X4 (dead tokens end inactive).  For a response that passes the
    top-level test and whose results fit the token list, every row whose
    token sits at an index whose result carries "NotRegistered" or
    "InvalidRegistration" is inactive after [_cm_handle_response], whether
    the call returns or raises [GCMError], and whatever the renames of the
    same response did to the row afterwards. *)
Theorem handle_response_deactivates (tokens : list string)
  (response : gcm_response) (rs : list gcm_result) (w : world) :
  needs_reconciling response = true ->
  results response = Some rs ->
  (length rs <= length tokens)%nat ->
  Forall2
    (fun d d' =>
       (exists i r e,
           nth_error tokens i = Some (registration_id d) /\
           nth_error rs i = Some r /\
           res_error r = Some e /\ is_terminal e = true) ->
       active d' = false)
    (devices w) (devices (fst (_cm_handle_response tokens response w))).
Proof.
  intros Hgate Hrs Hlen.
  rewrite (handle_response_run tokens response rs w Hgate Hrs Hlen).
  cbn [fst]. unfold with_devices. cbn [devices]. unfold reconcile.
  apply (Forall2_chain
           (fun d d' => In (registration_id d) (terminal_tokens tokens rs) ->
                        active d' = false)
           (fun d d' => active d = false -> active d' = false)
           _ (devices w)
           (deactivate_all (terminal_tokens tokens rs) (devices w))).
  - intros x y z H1 H2 Hex. apply H2, H1. now apply terminal_tokens_in.
  - unfold deactivate_all, QuerySet.update. apply Forall2_map_self.
    intros d Hin. apply registration_id_in_true in Hin. now rewrite Hin.
  - apply fold_resolve_rows.
    + auto.
    + auto.
    + intros d p _ _. split; simpl; auto.
Qed.

Lemma handle_response_deactivates_witness :
  Forall2
    (fun d d' =>
       (exists i r e,
           nth_error Sample.tokens_abc i = Some (registration_id d) /\
           nth_error Sample.results_abc i = Some r /\
           res_error r = Some e /\ is_terminal e = true) ->
       active d' = false)
    (devices Sample.world_abc)
    (devices (fst (_cm_handle_response Sample.tokens_abc Sample.response_abc
                     Sample.world_abc))).
Proof.
  apply (handle_response_deactivates Sample.tokens_abc Sample.response_abc
           Sample.results_abc Sample.world_abc).
  - reflexivity.
  - reflexivity.
  - simpl. lia.
Defined.

(** ** What the canonical-id rule achieves *)

(** X5 (the old token is retired).  After [_cm_handle_canonical_id], no
    active row carries the current (old) token: its rows were deactivated
    or carry the canonical id now.  This holds for every table and every
    pair, also when the canonical id is the current token itself: then an
    active row with that token is deactivated. *)
Theorem canonical_id_retires_old (canonical_id current_id : string) (w : world) :
  forall d,
    In d (devices (fst (_cm_handle_canonical_id canonical_id current_id w))) ->
    registration_id d = current_id ->
    active d = false.
Proof.
  rewrite handle_canonical_id_run. cbn [fst]. unfold with_devices. cbn [devices].
  intros d' Hin Hreg. unfold resolve in Hin.
  destruct (has_active canonical_id (devices w)) eqn:Ha;
    apply update_in in Hin; destruct Hin as [d [Hd ->]];
    destruct (QuerySet.registration_id_is current_id d) eqn:E.
  - reflexivity.
  - apply registration_id_is_true in Hreg. congruence.
  - simpl in Hreg. subst canonical_id. simpl.
    destruct (active d) eqn:Hact; [|reflexivity].
    assert (Habs : has_active current_id (devices w) = true).
    { apply has_active_iff. exists d. repeat split; try assumption.
      now apply registration_id_is_true. }
    congruence.
  - apply registration_id_is_true in Hreg. congruence.
Qed.

Lemma canonical_id_retires_old_witness :
  In (Sample.dev "C" false)
     (devices (fst (_cm_handle_canonical_id "A" "C" Sample.world_abc))) /\
  active (Sample.dev "C" false) = false.
Proof.
  assert (Hin : In (Sample.dev "C" false)
                  (devices (fst (_cm_handle_canonical_id "A" "C" Sample.world_abc)))).
  { simpl. auto. }
  split; [exact Hin|].
  apply (canonical_id_retires_old "A" "C" Sample.world_abc (Sample.dev "C" false)).
  - exact Hin.
  - reflexivity.
Defined.

(** X6 (the device stays reachable).  When the canonical id differs from
    the current token and an active row carried either of them before
    [_cm_handle_canonical_id], an active row carries the canonical id
    after it. *)
Theorem canonical_id_keeps_device (canonical_id current_id : string) (w : world) :
  current_id <> canonical_id ->
  (exists d, In d (devices w) /\ active d = true /\
             (registration_id d = current_id \/ registration_id d = canonical_id)) ->
  exists d',
    In d' (devices (fst (_cm_handle_canonical_id canonical_id current_id w))) /\
    registration_id d' = canonical_id /\ active d' = true.
Proof.
  intros Hne [d [Hin [Hact Hreg]]].
  rewrite handle_canonical_id_run. cbn [fst]. unfold with_devices. cbn [devices].
  unfold resolve. destruct (has_active canonical_id (devices w)) eqn:Ha.
  - apply has_active_iff in Ha. destruct Ha as [d0 [Hin0 [Hr0 Ha0]]].
    exists d0. repeat split; try assumption.
    apply update_in. exists d0. split; [exact Hin0|].
    destruct (QuerySet.registration_id_is current_id d0) eqn:E; [|reflexivity].
    apply registration_id_is_true in E. congruence.
  - destruct Hreg as [Hcur | Hcan].
    + exists (QuerySet.set_registration_id canonical_id d).
      repeat split; try assumption.
      apply update_in. exists d. split; [exact Hin|].
      apply registration_id_is_true in Hcur. now rewrite Hcur.
    + assert (Habs : has_active canonical_id (devices w) = true).
      { apply has_active_iff. exists d. repeat split; assumption. }
      congruence.
Qed.

Lemma canonical_id_keeps_device_witness :
  exists d',
    In d' (devices (fst (_cm_handle_canonical_id "NEW" "C" Sample.world_abc))) /\
    registration_id d' = "NEW"%string /\ active d' = true.
Proof.
  apply (canonical_id_keeps_device "NEW" "C" Sample.world_abc).
  - discriminate.
  - exists (Sample.dev "C" true). repeat split.
    + simpl. auto.
    + left. reflexivity.
Defined.

(** ** Edges of the dispatch *)

Lemma chunks_zero_step {A : Type} (l : list A) : _chunks l 0 = Raise ValueError.
Proof. reflexivity. Qed.

Lemma chunks_negative_step {A : Type} (l : list A) (n : Z) :
  n < 0 -> _chunks l n = Return [].
Proof.
  intros Hn. unfold _chunks, Py.range, Py.len.
  destruct (n =? 0) eqn:E0; [apply Z.eqb_eq in E0; lia|].
  destruct (0 <? n) eqn:E1; [apply Z.ltb_lt in E1; lia|].
  assert (Hq : (0 - Z.of_nat (length l) - n - 1) / - n <= 0).
  { assert (H : (0 - Z.of_nat (length l) - n - 1) / - n < 1);
      [apply Z.div_lt_upper_bound; lia|lia]. }
  replace (Z.to_nat ((0 - Z.of_nat (length l) - n - 1) / - n)) with 0%nat by lia.
  reflexivity.
Qed.

(** X7 (nothing to send).  On an empty token list [_gcm_send_json] and
    [gcm_send_bulk_message] leave the world as it is and raise nothing,
    whatever the settings: no request goes out and a missing API key is
    not reported.  The bulk send returns [None], or the empty list when
    the configured limit is negative. *)
Theorem send_nothing (SETTINGS : settings)
  (urlopen : nat -> http_request -> http_reply)
  (data collapse_key delay_while_idle time_to_live : json) (w : world) :
  _gcm_send_json SETTINGS urlopen [] data collapse_key delay_while_idle
    time_to_live w = (w, Return None) /\
  gcm_send_bulk_message SETTINGS urlopen [] data collapse_key delay_while_idle
    time_to_live w =
  (w, Return (if GCM_MAX_RECIPIENTS SETTINGS <? 0 then PerChunk [] else Single None)).
Proof.
  split; [reflexivity|].
  unfold gcm_send_bulk_message.
  change (Py.len (@nil string)) with 0.
  destruct (GCM_MAX_RECIPIENTS SETTINGS <? 0) eqn:E; [|reflexivity].
  apply Z.ltb_lt in E.
  rewrite (chunks_negative_step (@nil string) _ E). reflexivity.
Qed.

(** X8 (a limit that is not positive).  With a non-empty token list, a
    configured limit of zero makes [gcm_send_bulk_message] raise
    [ValueError], and a negative limit makes it return the empty list;
    in both cases nothing is sent and the world is unchanged: no token of
    the list is delivered. *)
Theorem bulk_limit_not_positive (SETTINGS : settings)
  (urlopen : nat -> http_request -> http_reply) (registration_ids : list string)
  (data collapse_key delay_while_idle time_to_live : json) (w : world) :
  registration_ids <> [] ->
  GCM_MAX_RECIPIENTS SETTINGS <= 0 ->
  gcm_send_bulk_message SETTINGS urlopen registration_ids data collapse_key
    delay_while_idle time_to_live w =
  (w, if GCM_MAX_RECIPIENTS SETTINGS =? 0 then Raise ValueError
      else Return (PerChunk [])).
Proof.
  intros Hne Hmax. unfold gcm_send_bulk_message.
  assert (Hlen : (GCM_MAX_RECIPIENTS SETTINGS <? Py.len registration_ids) = true).
  { apply Z.ltb_lt. unfold Py.len. destruct registration_ids; [congruence|].
    simpl length. lia. }
  rewrite Hlen.
  destruct (GCM_MAX_RECIPIENTS SETTINGS =? 0) eqn:E0.
  - apply Z.eqb_eq in E0. rewrite E0. reflexivity.
  - apply Z.eqb_neq in E0.
    assert (Hneg : GCM_MAX_RECIPIENTS SETTINGS < 0) by lia.
    rewrite (chunks_negative_step registration_ids _ Hneg). reflexivity.
Qed.

Lemma bulk_limit_not_positive_witness :
  gcm_send_bulk_message (Sample.configured 0) Sample.accepts_all Sample.tokens_abc
    Sample.payload JNull (JBool false) (JNum 0) Sample.world_abc =
  (Sample.world_abc,
   if GCM_MAX_RECIPIENTS (Sample.configured 0) =? 0 then Raise ValueError
   else Return (PerChunk [])).
Proof.
  apply (bulk_limit_not_positive (Sample.configured 0) Sample.accepts_all
           Sample.tokens_abc Sample.payload JNull (JBool false) (JNum 0)
           Sample.world_abc).
  - discriminate.
  - simpl. lia.
Defined.

Lemma handle_response_outcome (tokens : list string) (response : gcm_response)
  (w : world) :
  snd (_cm_handle_response tokens response w) =
  if needs_reconciling response then
    match results response with
    | None => Raise (KeyError "results")
    | Some rs =>
        if existsb needs_token (skipn (length tokens) rs) then Raise IndexError
        else if rejected rs then Raise (GCMError response)
        else Return response
    end
  else Return response.
Proof.
  destruct (needs_reconciling response) eqn:Hgate.
  - destruct (results response) as [rs|] eqn:Hrs.
    + pose proof (scan_any_length tokens rs) as Hscan.
      destruct (existsb needs_token (skipn (length tokens) rs)).
      * now rewrite (handle_response_scan_raises tokens response rs _ w Hgate Hrs Hscan).
      * now rewrite (handle_response_after_scan tokens response rs _ w Hgate Hrs Hscan).
    + unfold _cm_handle_response. unfold needs_reconciling in Hgate.
      rewrite Hgate, Hrs. reflexivity.
  - unfold _cm_handle_response. unfold needs_reconciling in Hgate.
    rewrite Hgate. reflexivity.
Qed.

(** X9 (a failed send and the registry).  When [_gcm_send_json] raises
    [GCMError], the exception carries exactly the response the gateway
    gave to this request, that response passed the top-level test, and the
    table is the reconciled one: every write of the reconciliation was
    made before the exception.  When it raises anything else, the device
    table is as it was before the call. *)
Theorem send_json_failure (SETTINGS : settings)
  (urlopen : nat -> http_request -> http_reply) (registration_ids : list string)
  (data collapse_key delay_while_idle time_to_live : json) (w w' : world) (e : exn) :
  _gcm_send_json SETTINGS urlopen registration_ids data collapse_key
    delay_while_idle time_to_live w = (w', Raise e) ->
  (forall response, e = GCMError response ->
     urlopen (length (sent w))
       (gcm_request SETTINGS registration_ids data collapse_key delay_while_idle
          time_to_live) = Body response /\
     needs_reconciling response = true /\
     devices w' = reconciled_table registration_ids response (devices w)) /\
  ((forall response, e <> GCMError response) -> devices w' = devices w).
Proof.
  intros Hrun.
  destruct registration_ids as [|t ids]; [discriminate|].
  rewrite (send_json_run SETTINGS urlopen data collapse_key delay_while_idle
             time_to_live (t :: ids) w ltac:(discriminate)) in Hrun.
  destruct (Py.opt_truthy (GCM_API_KEY SETTINGS)).
  - cbv zeta in Hrun.
    destruct (urlopen _ _) as [parsed|status] eqn:Hreply.
    + match type of Hrun with
      | context [_cm_handle_response ?ids ?r ?w1] =>
          pose proof (handle_response_world ids r w1) as Hw;
          pose proof (handle_response_outcome ids r w1) as Ho;
          destruct (_cm_handle_response ids r w1) as [w2 [response|e']]
      end; [discriminate|].
      injection Hrun as <- <-. cbn [fst snd] in Hw, Ho.
      rewrite Hw. unfold with_devices. cbn [devices].
      destruct (needs_reconciling parsed) eqn:Hgate; [|discriminate].
      destruct (results parsed) as [rs|] eqn:Hrs.
      * destruct (existsb needs_token (skipn (length (t :: ids)) rs)) eqn:Hover.
        -- injection Ho as ->. split; [discriminate|]. intros _.
           unfold reconciled_table. now rewrite Hgate, Hrs, Hover.
        -- destruct (rejected rs); [|discriminate].
           injection Ho as ->. split.
           ++ intros response Heq. injection Heq as <-.
              split; [reflexivity|]. split; [exact Hgate|reflexivity].
           ++ intros Hnot. elim (Hnot parsed). reflexivity.
      * injection Ho as ->. split; [discriminate|]. intros _.
        unfold reconciled_table. now rewrite Hgate, Hrs.
    + injection Hrun as <- <-. split; [discriminate|]. reflexivity.
  - injection Hrun as <- <-. split; [discriminate|]. reflexivity.
Qed.

Lemma send_json_failure_witness :
  (forall response, GCMError Sample.response_mixed = GCMError response ->
     Sample.answers_mixed (length (sent Sample.world_abc))
       (gcm_request (Sample.configured 1000) Sample.tokens_abc Sample.payload
          JNull (JBool false) (JNum 0)) = Body response /\
     needs_reconciling response = true /\
     devices
       (fst (_gcm_send_json (Sample.configured 1000) Sample.answers_mixed
               Sample.tokens_abc Sample.payload JNull (JBool false) (JNum 0)
               Sample.world_abc)) =
     reconciled_table Sample.tokens_abc response (devices Sample.world_abc)) /\
  ((forall response, GCMError Sample.response_mixed <> GCMError response) ->
   devices
     (fst (_gcm_send_json (Sample.configured 1000) Sample.answers_mixed
             Sample.tokens_abc Sample.payload JNull (JBool false) (JNum 0)
             Sample.world_abc)) =
   devices Sample.world_abc).
Proof.
  apply (send_json_failure (Sample.configured 1000) Sample.answers_mixed
           Sample.tokens_abc Sample.payload JNull (JBool false) (JNum 0)
           Sample.world_abc).
  vm_compute. reflexivity.
Defined.

(** The sample failure: A is deactivated and C renamed before [GCMError]
    is raised for the "Unavailable" of B. *)
Example send_json_failure_sample :
  devices
    (fst (_gcm_send_json (Sample.configured 1000) Sample.answers_mixed
            Sample.tokens_abc Sample.payload JNull (JBool false) (JNum 0)
            Sample.world_abc)) =
  [Sample.dev "A" false; Sample.dev "B" true; Sample.dev "NEW" true].
Proof. vm_compute. reflexivity. Qed.

Lemma windows_sizes {A : Type} (l : list A) (n : nat) :
  (0 < n)%nat -> Forall (fun c => (1 <= length c <= n)%nat) (windows l n).
Proof.
  intros Hn. apply Forall_forall. intros c Hc. unfold windows in Hc.
  apply in_map_iff in Hc. destruct Hc as [k [<- Hk]]. apply in_seq in Hk.
  destruct (chunk_count_bounds (length l) n Hn) as [_ Hlt].
  specialize (Hlt k ltac:(lia)).
  rewrite length_firstn, length_skipn. lia.
Qed.

(** X10 (no request is over the limit).  Under a limit of at least 1,
    however a call of [gcm_send_bulk_message] ends, the requests it put on
    the network are the requests for consecutive pieces of the token list,
    taken from its start and in order, and each piece holds at least one
    and at most [GCM_MAX_RECIPIENTS] tokens. *)
Theorem bulk_request_sizes (SETTINGS : settings)
  (urlopen : nat -> http_request -> http_reply) (registration_ids : list string)
  (data collapse_key delay_while_idle time_to_live : json) (w : world) :
  1 <= GCM_MAX_RECIPIENTS SETTINGS ->
  exists (pieces : list (list string)) (rest : list string),
    sent (fst (gcm_send_bulk_message SETTINGS urlopen registration_ids data
                 collapse_key delay_while_idle time_to_live w)) =
      sent w ++
      map (fun c => gcm_request SETTINGS c data collapse_key delay_while_idle
                      time_to_live) pieces /\
    Forall (fun c => 1 <= Py.len c <= GCM_MAX_RECIPIENTS SETTINGS) pieces /\
    concat pieces ++ rest = registration_ids.
Proof.
  intros Hmax.
  assert (Hpos : (0 < Z.to_nat (GCM_MAX_RECIPIENTS SETTINGS))%nat) by lia.
  destruct (Z.ltb_spec (GCM_MAX_RECIPIENTS SETTINGS) (Py.len registration_ids))
    as [Hlt|Hge].
  - rewrite (bulk_over_limit SETTINGS urlopen registration_ids data collapse_key
               delay_while_idle time_to_live w Hmax Hlt).
    pose proof (windows_concat registration_ids _ Hpos) as Hcat.
    assert (Hsizes : Forall (fun c => 1 <= Py.len c <= GCM_MAX_RECIPIENTS SETTINGS)
                       (windows registration_ids
                          (Z.to_nat (GCM_MAX_RECIPIENTS SETTINGS)))).
    { eapply Forall_impl; [|apply (windows_sizes registration_ids _ Hpos)].
      intros c Hc. cbv beta in Hc. unfold Py.len. lia. }
    destruct (send_chunks_cases SETTINGS urlopen data collapse_key delay_while_idle
                time_to_live
                (windows registration_ids (Z.to_nat (GCM_MAX_RECIPIENTS SETTINGS)))
                [] w (windows_nonempty registration_ids _ Hpos))
      as [[rs [w' [_ [Hs Hsend]]]]
         | [pre [c [post [rs [w1 [w2 [e [Hsplit [_ [Hs [_ [Hs2 Hsend]]]]]]]]]]]]].
    + rewrite Hsend. cbn [fst].
      exists (windows registration_ids (Z.to_nat (GCM_MAX_RECIPIENTS SETTINGS))), [].
      repeat split; [exact Hs|exact Hsizes|].
      rewrite app_nil_r. exact Hcat.
    + rewrite Hsend. cbn [fst]. rewrite Hsplit in Hsizes, Hcat.
      apply Forall_app in Hsizes. destruct Hsizes as [Hpre Hrest].
      inversion Hrest as [|c' post' Hc Hpost]; subst c' post'.
      rewrite concat_app in Hcat. simpl in Hcat.
      destruct Hs2 as [Hs2 | Hs2].
      * exists pre, (c ++ concat post). repeat split.
        -- rewrite Hs2. exact Hs.
        -- exact Hpre.
        -- exact Hcat.
      * exists (pre ++ [c]), (concat post). repeat split.
        -- rewrite Hs2, Hs, map_app, <- app_assoc. reflexivity.
        -- apply Forall_app. split; [exact Hpre|]. constructor; [exact Hc|constructor].
        -- rewrite concat_app. simpl. rewrite app_nil_r, <- app_assoc. exact Hcat.
  - unfold gcm_send_bulk_message.
    apply Z.ltb_ge in Hge. rewrite Hge. apply Z.ltb_ge in Hge.
    assert (Hfst : forall (c : M (option gcm_response)),
               fst (bind c (fun r => ret (Single r)) w) = fst (c w)).
    { intros c. unfold bind. destruct (c w) as [w' [r|e]]; reflexivity. }
    rewrite Hfst.
    destruct registration_ids as [|t ids].
    + exists [], []. repeat split; [simpl; now rewrite app_nil_r|constructor].
    + destruct (Py.opt_truthy (GCM_API_KEY SETTINGS)) eqn:Hkey.
      * exists [t :: ids], []. repeat split.
        -- apply send_json_sent_with_key; [discriminate|exact Hkey].
        -- constructor; [|constructor]. unfold Py.len in *. simpl length in *. lia.
        -- simpl. now rewrite !app_nil_r.
      * exists [], (t :: ids). repeat split; [|constructor].
        rewrite (send_json_run SETTINGS urlopen data collapse_key delay_while_idle
                   time_to_live (t :: ids) w ltac:(discriminate)).
        rewrite Hkey. simpl. now rewrite app_nil_r.
Qed.

Lemma bulk_request_sizes_witness :
  exists (pieces : list (list string)) (rest : list string),
    sent (fst (gcm_send_bulk_message (Sample.configured 2) (Sample.second_fails 2)
                 (Sample.many_tokens 5) Sample.payload JNull (JBool false)
                 (JNum 0) (Sample.world_of []))) =
      sent (Sample.world_of []) ++
      map (fun c => gcm_request (Sample.configured 2) c Sample.payload JNull
                      (JBool false) (JNum 0)) pieces /\
    Forall (fun c => 1 <= Py.len c <= GCM_MAX_RECIPIENTS (Sample.configured 2))
      pieces /\
    concat pieces ++ rest = Sample.many_tokens 5.
Proof.
  apply (bulk_request_sizes (Sample.configured 2) (Sample.second_fails 2)
           (Sample.many_tokens 5) Sample.payload JNull (JBool false) (JNum 0)
           (Sample.world_of [])).
  simpl. lia.
Defined.

(** ** The management command [prune_devices] *)

Lemma save_at_middle (pre : list Prune.APNSDevice) (r d : Prune.APNSDevice)
  (rest : list Prune.APNSDevice) :
  Prune.save_at (length pre) d (pre ++ r :: rest) = pre ++ d :: rest.
Proof. induction pre as [|x pre IH]; simpl; [reflexivity | now rewrite IH]. Qed.

(** The loop over the selected objects, started at any point of the table:
    the rows before that point are not touched, the selected rows after it
    are deactivated, and one line is written for each of them. *)
Lemma deactivate_each_run (tokens : list string) (t pre : list Prune.APNSDevice)
  (out : list string) (n : nat) :
  Prune.deactivate_each (Prune.select tokens (length pre) t)
    {| Prune.devices := pre ++ t; Prune.stdout := out; Prune.asked := n |} =
  {| Prune.devices := pre ++ map (Prune.pruned tokens) t;
     Prune.stdout :=
       out ++ map Prune.line (filter (Prune.registration_id_in tokens) t);
     Prune.asked := n |}.
Proof.
  revert pre out. induction t as [|d t IH]; intros pre out.
  - simpl. now rewrite !app_nil_r.
  - simpl. unfold Prune.pruned at 1.
    destruct (Prune.registration_id_in tokens d) eqn:E.
    + simpl. unfold Prune.save, Prune.write.
      cbn [Prune.devices Prune.stdout Prune.asked].
      rewrite save_at_middle.
      replace (pre ++ Prune.set_inactive d :: t)
        with ((pre ++ [Prune.set_inactive d]) ++ t)
        by (now rewrite <- app_assoc).
      replace (S (length pre)) with (length (pre ++ [Prune.set_inactive d]))
        by (rewrite length_app; simpl; lia).
      rewrite IH. rewrite <- !app_assoc. reflexivity.
    + replace (pre ++ d :: t) with ((pre ++ [d]) ++ t)
        by (now rewrite <- app_assoc).
      replace (S (length pre)) with (length (pre ++ [d]))
        by (rewrite length_app; simpl; lia).
      rewrite IH. rewrite <- !app_assoc. reflexivity.
Qed.

Lemma select_length (tokens : list string) (pk : nat) (t : list Prune.APNSDevice) :
  length (Prune.select tokens pk t) =
  length (filter (Prune.registration_id_in tokens) t).
Proof.
  revert pk. induction t as [|d t IH]; intros pk; simpl; [reflexivity|].
  destruct (Prune.registration_id_in tokens d); simpl; now rewrite IH.
Qed.

Lemma handle_app_run (get_expired_tokens : nat -> string -> option (list string))
  (app : string) (st : Prune.state) :
  Prune.handle_app get_expired_tokens app st =
  match get_expired_tokens (Prune.asked st) app with
  | None =>
      ({| Prune.devices := Prune.devices st;
          Prune.stdout := Prune.stdout st;
          Prune.asked := S (Prune.asked st) |}, false)
  | Some expired =>
      ({| Prune.devices := map (Prune.pruned expired) (Prune.devices st);
          Prune.stdout :=
            Prune.stdout st ++ Prune.report (Prune.devices st) (app, expired);
          Prune.asked := S (Prune.asked st) |}, true)
  end.
Proof.
  unfold Prune.handle_app, Prune.report. destruct st as [t out n].
  cbn [Prune.devices Prune.stdout Prune.asked fst snd].
  destruct (get_expired_tokens n app) as [expired|]; [|reflexivity].
  pose proof (deactivate_each_run expired t [] out (S n)) as Hrun.
  simpl in Hrun. rewrite Hrun. unfold Prune.write.
  cbn [Prune.devices Prune.stdout Prune.asked]. unfold Py.len.
  rewrite select_length. rewrite <- app_assoc. reflexivity.
Qed.

Lemma registration_id_in_pruned (tokens tokens' : list string)
  (d : Prune.APNSDevice) :
  Prune.registration_id_in tokens (Prune.pruned tokens' d) =
  Prune.registration_id_in tokens d.
Proof.
  unfold Prune.pruned. destruct (Prune.registration_id_in tokens' d); reflexivity.
Qed.

Lemma report_pruned (tokens : list string) (t : list Prune.APNSDevice)
  (query : string * list string) :
  Prune.report (map (Prune.pruned tokens) t) query = Prune.report t query.
Proof.
  unfold Prune.report.
  assert (H : map Prune.line
                (filter (Prune.registration_id_in (snd query))
                   (map (Prune.pruned tokens) t)) =
              map Prune.line
                (filter (Prune.registration_id_in (snd query)) t)).
  { induction t as [|d t IH]; simpl; [reflexivity|].
    rewrite registration_id_in_pruned.
    destruct (Prune.registration_id_in (snd query) d); simpl;
      rewrite IH; [|reflexivity].
    f_equal. unfold Prune.line, Prune.pruned.
    destruct (Prune.registration_id_in tokens d); reflexivity. }
  assert (L : length (filter (Prune.registration_id_in (snd query))
                        (map (Prune.pruned tokens) t)) =
              length (filter (Prune.registration_id_in (snd query)) t)).
  { rewrite <- (length_map Prune.line), H. now rewrite length_map. }
  rewrite H. unfold Py.len. rewrite L. reflexivity.
Qed.

Lemma pruned_app (tokens tokens' : list string) (d : Prune.APNSDevice) :
  Prune.pruned (tokens ++ tokens') d = Prune.pruned tokens' (Prune.pruned tokens d).
Proof.
  unfold Prune.pruned at 1 2. rewrite registration_id_in_pruned.
  unfold Prune.registration_id_in at 1. rewrite existsb_app.
  fold (Prune.registration_id_in tokens d) (Prune.registration_id_in tokens' d).
  unfold Prune.pruned.
  destruct (Prune.registration_id_in tokens d),
           (Prune.registration_id_in tokens' d); reflexivity.
Qed.

Lemma pruned_nil (t : list Prune.APNSDevice) : map (Prune.pruned []) t = t.
Proof. induction t as [|d t IH]; simpl; [reflexivity | now rewrite IH]. Qed.

(** The whole run, in one equation: the table, the output and the number
    of queries after [handle], and whether it ended normally. *)
Lemma handle_run (get_expired_tokens : nat -> string -> option (list string))
  (args : list string) (st : Prune.state) :
  let queries := Prune.answered get_expired_tokens (Prune.asked st) args in
  Prune.handle get_expired_tokens args st =
  ({| Prune.devices :=
        map (Prune.pruned (flat_map snd queries)) (Prune.devices st);
      Prune.stdout :=
        Prune.stdout st ++ flat_map (Prune.report (Prune.devices st)) queries;
      Prune.asked :=
        (Prune.asked st + if (length queries <? length args)%nat
                          then S (length queries) else length queries)%nat |},
   (length args <=? length queries)%nat).
Proof.
  revert st. induction args as [|app rest IH]; intros [t out n].
  - simpl. rewrite pruned_nil, app_nil_r, Nat.add_0_r. reflexivity.
  - cbn zeta. cbn [Prune.handle Prune.answered Prune.devices Prune.stdout Prune.asked].
    rewrite handle_app_run. cbn [Prune.devices Prune.stdout Prune.asked].
    destruct (get_expired_tokens n app) as [expired|].
    + rewrite IH. cbn [Prune.devices Prune.stdout Prune.asked].
      cbn [flat_map snd length].
      set (queries := Prune.answered get_expired_tokens (S n) rest).
      f_equal. f_equal.
      * rewrite map_map. apply map_ext. intros d. now rewrite pruned_app.
      * rewrite <- app_assoc. f_equal. f_equal.
        apply flat_map_ext. intros q. apply report_pruned.
      * change (S (length queries) <? S (length rest))%nat
          with (length queries <? length rest)%nat.
        destruct (length queries <? length rest)%nat; lia.
    + simpl. rewrite pruned_nil, app_nil_r. f_equal. f_equal. lia.
Qed.

Lemma handle_append (get_expired_tokens : nat -> string -> option (list string))
  (before after : list string) (st : Prune.state) :
  Prune.handle get_expired_tokens (before ++ after) st =
  if snd (Prune.handle get_expired_tokens before st)
  then Prune.handle get_expired_tokens after
         (fst (Prune.handle get_expired_tokens before st))
  else Prune.handle get_expired_tokens before st.
Proof.
  revert st. induction before as [|app rest IH]; intros st.
  - reflexivity.
  - simpl. destruct (Prune.handle_app get_expired_tokens app st) as [st' [|]].
    + apply IH.
    + reflexivity.
Qed.

(** X11 (what [prune_devices] does to the table).  After the command, a
    row whose token was reported by one of the answered feedback queries is
    inactive, with its token and application as before, and every other
    row is as it was; no row is added, removed or moved.  This holds also
    when a later query raised: the rows of the queries answered before it
    stay deactivated. *)
Theorem prune_devices_table
  (get_expired_tokens : nat -> string -> option (list string))
  (args : list string) (st : Prune.state) :
  Prune.devices (fst (Prune.handle get_expired_tokens args st)) =
  map (fun d =>
         if Prune.registration_id_in
              (flat_map snd
                 (Prune.answered get_expired_tokens (Prune.asked st) args)) d
         then Prune.set_inactive d else d)
      (Prune.devices st).
Proof.
  pose proof (handle_run get_expired_tokens args st) as Hrun.
  cbn zeta in Hrun. rewrite Hrun. reflexivity.
Qed.

(** X12 (what [prune_devices] writes).  For each answered query, in the
    order of the arguments, the command writes one line "deactivating
    [token]" for each row of the table as it was at the start whose token
    the query reported, in table order, and then a summary with the number
    of those rows and the application.  Rows that were inactive already,
    also those the same run deactivated for an earlier argument, are
    written and counted again; a token reported twice counts once per
    row. *)
Theorem prune_devices_output
  (get_expired_tokens : nat -> string -> option (list string))
  (args : list string) (st : Prune.state) :
  Prune.stdout (fst (Prune.handle get_expired_tokens args st)) =
  Prune.stdout st ++
  flat_map (Prune.report (Prune.devices st))
    (Prune.answered get_expired_tokens (Prune.asked st) args).
Proof.
  pose proof (handle_run get_expired_tokens args st) as Hrun.
  cbn zeta in Hrun. rewrite Hrun. reflexivity.
Qed.

(** X13 (a failing feedback query).  When the queries for the arguments
    [before] are answered and the next query raises, the command ends with
    that exception, asks nothing for the arguments after it, and leaves
    the table and the output as the run over [before] alone leaves them:
    what was deactivated stays deactivated. *)
Theorem prune_devices_feedback_error
  (get_expired_tokens : nat -> string -> option (list string))
  (before after : list string) (app : string) (st : Prune.state) :
  length (Prune.answered get_expired_tokens (Prune.asked st) before) =
    length before ->
  get_expired_tokens (Prune.asked st + length before)%nat app = None ->
  let done := fst (Prune.handle get_expired_tokens before st) in
  Prune.handle get_expired_tokens (before ++ app :: after) st =
  ({| Prune.devices := Prune.devices done;
      Prune.stdout := Prune.stdout done;
      Prune.asked := S (Prune.asked st + length before) |}, false).
Proof.
  intros Hall Hnone. cbn zeta. rewrite handle_append.
  pose proof (handle_run get_expired_tokens before st) as Hrun.
  cbn zeta in Hrun. rewrite Hrun. rewrite Hall.
  rewrite Nat.leb_refl, Nat.ltb_irrefl. cbn [fst snd].
  cbn [Prune.handle]. rewrite handle_app_run.
  cbn [Prune.devices Prune.stdout Prune.asked]. rewrite Hnone. reflexivity.
Qed.

Lemma prune_devices_feedback_error_witness :
  Prune.handle Prune.sample_feedback ["news"; "other"; "mail"]%string
    Prune.sample_state =
  ({| Prune.devices :=
        Prune.devices
          (fst (Prune.handle Prune.sample_feedback ["news"%string]
                  Prune.sample_state));
      Prune.stdout :=
        Prune.stdout
          (fst (Prune.handle Prune.sample_feedback ["news"%string]
                  Prune.sample_state));
      Prune.asked := 2 |}, false).
Proof.
  apply (prune_devices_feedback_error Prune.sample_feedback
           ["news"%string] ["mail"%string] "other"%string Prune.sample_state).
  - reflexivity.
  - reflexivity.
Defined.

(** The sample run: B is reported for "news" and carried by two rows, one
    of them inactive before; A is reported for "mail". *)
Example prune_sample_run :
  Prune.handle Prune.sample_feedback ["news"; "mail"]%string Prune.sample_state =
  ({| Prune.devices :=
        [Prune.sample_row "A" false; Prune.sample_row "B" false;
         Prune.sample_row "C" false; Prune.sample_row "D" true;
         Prune.sample_row "B" false];
      Prune.stdout :=
        ["deactivating [B]"; "deactivating [C]"; "deactivating [B]";
         "deactivated 3 devices for app news";
         "deactivating [A]"; "deactivated 1 devices for app mail"]%string;
      Prune.asked := 2 |}, true).
Proof. vm_compute. reflexivity. Qed.
